(** * cidr.go: selection of a CIDR block for a Cloud TPU network

    A shallow embedding of [selectCIDRBlock] and [cidrBlockSize] from
    [cidr.go], together with the parts of the Go runtime they call
    ([net], [strings], [fmt], [math/rand]), and the properties of the
    allocator stated over that embedding.

    Conventions.
    - Go [int] and [uint] are the 64-bit types of the usual build targets;
      they are embedded as [Z] with the wrap-around written out.
    - A [byte] is a [Z] in [0, 256).
    - A Go [string] is a Rocq [string] (a sequence of bytes).
    - A [nil] slice is the empty list: every slice built by the functions
      modelled here is either [nil] or non-empty.
    - A pointer to a route is an [option]: [None] is the [nil] pointer,
      and reading a field through it is a run-time panic.
    - The package-level variables, the standard output, the wall clock and
      the global random source live in a [World] that is threaded through
      the code by a small state monad whose outcomes also record a run-time
      panic and the exhaustion of the fuel given to the [for] loop.
    - The textual grammar of IPv6 addresses, their printer and the generator
      behind [math/rand] are not part of this program: the development is
      parametric in them (Section variables). *)

From Stdlib Require Import ZArith String Ascii List Bool Lia.
From stdpp Require Import base tactics option list gmap strings.

(* stdpp freezes [String.append] under [simpl]; the proofs below compute
   with it. *)
#[local] Arguments String.append !s1 s2 / : simpl nomatch.

Local Open Scope string_scope.
Local Open Scope list_scope.
Local Open Scope Z_scope.

(** ** Machine integers *)

Definition wrap_uint (x : Z) : Z := x mod 2 ^ 64.

Definition wrap_int (x : Z) : Z := (x + 2 ^ 63) mod 2 ^ 64 - 2 ^ 63.

(** [byte(x)] for an integer [x]. *)
Definition byte_of (x : Z) : Z := x mod 256.

(** [a - b] on [uint]. *)
Definition sub_uint (a b : Z) : Z := wrap_uint (a - b).

(** [x << s] on [int], for an unsigned shift count [s]: a count of 64 or
    more yields 0. *)
Definition shl_int (x s : Z) : Z :=
  if 64 <=? s then 0 else wrap_int (Z.shiftl x s).

(** ** Bytes and strings *)

Definition Z_of_ascii (c : ascii) : Z := Z.of_N (N_of_ascii c).

Definition ascii_of_Z (x : Z) : ascii := ascii_of_N (Z.to_N (byte_of x)).

Definition is_digit (c : ascii) : bool :=
  (48 <=? Z_of_ascii c) && (Z_of_ascii c <=? 57).

Definition str_len (s : string) : nat := String.length s.

(** [s[n:]] *)
Fixpoint str_drop (n : nat) (s : string) : string :=
  match n, s with
  | O, _ => s
  | S n', String _ s' => str_drop n' s'
  | S _, EmptyString => EmptyString
  end.

(** [s[:n]] *)
Fixpoint str_take (n : nat) (s : string) : string :=
  match n, s with
  | O, _ => EmptyString
  | S n', String c s' => String c (str_take n' s')
  | S _, EmptyString => EmptyString
  end.

(** [strings.HasSuffix] *)
Definition strings_HasSuffix (s suffix : string) : bool :=
  (str_len suffix <=? str_len s)%nat
  && String.eqb (str_drop (str_len s - str_len suffix) s) suffix.

(** [strings.Index] for a non-empty separator: position of the first
    occurrence. *)
Fixpoint strings_Index (s sep : string) : option nat :=
  if String.prefix sep s then Some O
  else match s with
       | EmptyString => None
       | String _ s' =>
           match strings_Index s' sep with
           | Some m => Some (S m)
           | None => None
           end
       end.

(** The loop of [strings.Split] ([genSplit] with [n = -1]) for a non-empty
    separator. Every round consumes at least one byte, so [str_len s]
    rounds are enough. *)
Fixpoint genSplit (rounds : nat) (s sep : string) : list string :=
  match rounds with
  | O => [s]
  | S k =>
      match strings_Index s sep with
      | None => [s]
      | Some m => str_take m s :: genSplit k (str_drop (m + str_len sep) s) sep
      end
  end.

(** [strings.Split]. With an empty separator Go explodes the string into
    UTF-8 sequences; here into bytes, which is the same on ASCII text (the
    program only ever splits on ["/"]). *)
Definition strings_Split (s sep : string) : list string :=
  if String.eqb sep "" then map (fun c => String c "") (list_ascii_of_string s)
  else genSplit (str_len s) s sep.

(** [uitoa] of package [net]: decimal digits of an unsigned integer, filled
    from the right into a 20 byte buffer. *)
Fixpoint uitoa_loop (room : nat) (val : Z) (buf : string) : string :=
  match room with
  | O => buf
  | S k =>
      if 10 <=? val then
        let q := val / 10 in
        uitoa_loop k q (String (ascii_of_Z (48 + val - q * 10)) buf)
      else String (ascii_of_Z (48 + val)) buf
  end.

Definition uitoa (val : Z) : string :=
  if val =? 0 then "0" else uitoa_loop 20 val "".

(** [hexString] of package [net]. *)
Definition hexDigit : string := "0123456789abcdef".

Definition hexDigit_at (i : Z) : ascii :=
  match String.get (Z.to_nat i) hexDigit with
  | Some c => c
  | None => "0"%char
  end.

Fixpoint hexString (b : list Z) : string :=
  match b with
  | [] => ""
  | tn :: b' =>
      String (hexDigit_at (Z.shiftr tn 4))
        (String (hexDigit_at (Z.land tn 15)) (hexString b'))
  end.

(** [dtoi] of package [net]: decimal to integer; returns the number, the
    count of bytes consumed and a success flag. *)
Definition big : Z := 16777215.

Definition dtoi_end (n : Z) (i : nat) : Z * nat * bool :=
  match i with
  | O => (0, O, false)
  | S _ => (n, i, true)
  end.

Fixpoint dtoi_loop (s : string) (n : Z) (i : nat) : Z * nat * bool :=
  match s with
  | String c s' =>
      if is_digit c then
        let n' := n * 10 + (Z_of_ascii c - 48) in
        if big <=? n' then (big, i, false) else dtoi_loop s' n' (S i)
      else dtoi_end n i
  | EmptyString => dtoi_end n i
  end.

Definition dtoi (s : string) : Z * nat * bool := dtoi_loop s 0 O.

(** [byteIndex] of package [net]; [None] stands for -1. *)
Fixpoint byteIndex (s : string) (c : ascii) : option nat :=
  match s with
  | EmptyString => None
  | String a s' =>
      if Ascii.eqb a c then Some O
      else match byteIndex s' c with
           | Some i => Some (S i)
           | None => None
           end
  end.

(** ** Package [net]: addresses, masks and networks *)

Definition IP : Type := list Z.
Definition IPMask : Type := list Z.

Record IPNet : Type := mkIPNet { IPNet_IP : IP; IPNet_Mask : IPMask }.

Definition IPv4len : nat := 4.
Definition IPv6len : nat := 16.

Definition v4InV6Prefix : list Z := [0; 0; 0; 0; 0; 0; 0; 0; 0; 0; 255; 255].

(** [net.IPv4(a, b, c, d)]: the 16 byte form of an IPv4 address. *)
Definition IPv4 (a b c d : Z) : IP := v4InV6Prefix ++ [a; b; c; d].

Definition is_nil {A : Type} (l : list A) : bool :=
  match l with
  | [] => true
  | _ :: _ => false
  end.

(** [l[lo:hi]] *)
Definition slice {A : Type} (lo hi : nat) (l : list A) : list A :=
  take (hi - lo) (drop lo l).

Definition at_ (l : list Z) (i : nat) : Z := nth i l 0.

Fixpoint bytesEqual (a b : list Z) : bool :=
  match a, b with
  | [], [] => true
  | x :: a', y :: b' => (x =? y) && bytesEqual a' b'
  | _, _ => false
  end.

Definition isZeros (p : list Z) : bool := forallb (fun x => x =? 0) p.

Definition allFF (b : list Z) : bool := forallb (fun x => x =? 255) b.

(** [ip.To4()]; the result is [nil] when [ip] is not an IPv4 address. *)
Definition To4 (ip : IP) : IP :=
  if (length ip =? IPv4len)%nat then ip
  else if (length ip =? IPv6len)%nat && isZeros (slice 0 10 ip)
          && (at_ ip 10 =? 255) && (at_ ip 11 =? 255)
       then slice 12 16 ip
       else [].

(** [ip.Equal(x)] *)
Definition IP_Equal (ip x : IP) : bool :=
  if (length ip =? length x)%nat then bytesEqual ip x
  else if (length ip =? IPv4len)%nat && (length x =? IPv6len)%nat then
    bytesEqual (slice 0 12 x) v4InV6Prefix && bytesEqual ip (drop 12 x)
  else if (length ip =? IPv6len)%nat && (length x =? IPv4len)%nat then
    bytesEqual (slice 0 12 ip) v4InV6Prefix && bytesEqual (drop 12 ip) x
  else false.

(** [net.CIDRMask(ones, bits)] *)
Fixpoint CIDRMask_loop (l : nat) (n : Z) : IPMask :=
  match l with
  | O => []
  | S l' =>
      if 8 <=? n then 255 :: CIDRMask_loop l' (n - 8)
      else Z.lxor 255 (Z.shiftr 255 n) :: CIDRMask_loop l' 0
  end.

Definition CIDRMask (ones bits : Z) : IPMask :=
  if negb (bits =? 32) && negb (bits =? 128) then []
  else if (ones <? 0) || (bits <? ones) then []
  else CIDRMask_loop (Z.to_nat (bits / 8)) ones.

(** [ip.Mask(mask)] *)
Definition and_bytes (ip mask : list Z) : list Z :=
  map (fun i => Z.land (at_ ip i) (at_ mask i)) (seq 0 (length ip)).

Definition IP_Mask (ip : IP) (mask : IPMask) : IP :=
  let mask :=
    if (length mask =? IPv6len)%nat && (length ip =? IPv4len)%nat
       && allFF (slice 0 12 mask)
    then drop 12 mask else mask in
  let ip :=
    if (length mask =? IPv4len)%nat && (length ip =? IPv6len)%nat
       && bytesEqual (slice 0 12 ip) v4InV6Prefix
    then drop 12 ip else ip in
  if negb (length ip =? length mask)%nat then [] else and_bytes ip mask.

(** [simpleMaskLength]: the number of leading ones of a canonical mask, -1
    for any other mask. *)
Fixpoint leading_ones (bits : nat) (v n : Z) : Z * Z :=
  match bits with
  | O => (v, n)
  | S k =>
      if negb (Z.land v 128 =? 0) then leading_ones k (byte_of (Z.shiftl v 1)) (n + 1)
      else (v, n)
  end.

Fixpoint simpleMaskLength_loop (mask : IPMask) (n : Z) : Z :=
  match mask with
  | [] => n
  | v :: rest =>
      if v =? 255 then simpleMaskLength_loop rest (n + 8)
      else
        let '(v', n') := leading_ones 8 v n in
        if negb (v' =? 0) then -1
        else if negb (isZeros rest) then -1
        else n'
  end.

Definition simpleMaskLength (mask : IPMask) : Z := simpleMaskLength_loop mask 0.

(** [m.Size()] *)
Definition IPMask_Size (m : IPMask) : Z * Z :=
  let ones := simpleMaskLength m in
  let bits := Z.of_nat (length m) * 8 in
  if ones =? -1 then (0, 0) else (ones, bits).

(** [networkNumberAndMask] *)
Definition networkNumberAndMask (n : IPNet) : IP * IPMask :=
  let ip4 := To4 (IPNet_IP n) in
  let ip := if is_nil ip4 then IPNet_IP n else ip4 in
  if is_nil ip4 && negb (length ip =? IPv6len)%nat then ([], [])
  else if (length (IPNet_Mask n) =? IPv4len)%nat then
    if negb (length ip =? IPv4len)%nat then ([], []) else (ip, IPNet_Mask n)
  else if (length (IPNet_Mask n) =? IPv6len)%nat then
    if (length ip =? IPv4len)%nat then (ip, drop 12 (IPNet_Mask n))
    else (ip, IPNet_Mask n)
  else ([], []).

(** [n.Contains(ip)] *)
Definition IPNet_Contains (n : IPNet) (ip : IP) : bool :=
  let '(nn, m) := networkNumberAndMask n in
  let ip := if negb (is_nil (To4 ip)) then To4 ip else ip in
  let l := length ip in
  if negb (l =? length nn)%nat then false
  else forallb (fun i => Z.land (at_ nn i) (at_ m i) =? Z.land (at_ ip i) (at_ m i))
         (seq 0 l).

(** [s[0] == '0'] *)
Definition starts_with_zero (s : string) : bool :=
  match s with
  | String c _ => Ascii.eqb c "0"
  | EmptyString => false
  end.

(** [parseIPv4] of package [net] (Go 1.17 and later): four decimal octets
    separated by dots, none of them written with a leading zero. *)
Fixpoint parseIPv4_loop (todo : nat) (i : nat) (s : string) (p : list Z)
  : option (list Z * string) :=
  match todo with
  | O => Some (p, s)
  | S todo' =>
      match s with
      | EmptyString => None
      | String c0 s0 =>
          let after_dot :=
            match i with
            | O => Some s
            | S _ => if Ascii.eqb c0 "." then Some s0 else None
            end in
          match after_dot with
          | None => None
          | Some s1 =>
              let '(n, c, ok) := dtoi s1 in
              if negb ok || (255 <? n) then None
              else if (1 <? c)%nat && starts_with_zero s1 then None
              else parseIPv4_loop todo' (S i) (str_drop c s1) (p ++ [byte_of n])
          end
      end
  end.

Definition parseIPv4 (s : string) : IP :=
  match parseIPv4_loop IPv4len O s [] with
  | Some ([a; b; c; d], EmptyString) => IPv4 a b c d
  | _ => []
  end.

(** Go errors: [*net.ParseError] and the errors built by [fmt.Errorf],
    kept as the format with its arguments. *)
Inductive error : Type :=
| ParseError (Type_ Text : string)
| Errorf (format : string) (args : list fmt_arg)
with fmt_arg : Type :=
| arg_string (s : string)
| arg_error (e : error).

(** ** The world the program runs in *)

(** [compute.Route], restricted to the two fields the program reads. The
    program handles routes through pointers ([*compute.Route]): a pointer
    is [Some] route or [None] for [nil]. *)
Record Route : Type := mkRoute { Network : string; DestRange : string }.

(** The panic of a field access through a [nil] pointer. *)
Definition nilDereference : string :=
  "runtime error: invalid memory address or nil pointer dereference".

(** The package-level variables [legacyNetwork] and
    [tpuDeviceNetworkSizes], the lines written to the standard output, the
    reading of the wall clock in nanoseconds and the values the global
    source of [math/rand] will deliver next. *)
Record World : Type := mkWorld {
  legacyNetwork : IP;
  tpuDeviceNetworkSizes : gmap string Z;
  stdout : list string;
  clock : Z;
  globalRand : nat -> Z
}.

(** [var legacyNetwork = net.IPv4(10, 240, 0, 0)] *)
Definition legacyNetwork_init : IP := IPv4 10 240 0 0.

(** [var tpuDeviceNetworkSizes = map[string]uint{...}] *)
Definition tpuDeviceNetworkSizes_init : gmap string Z :=
  list_to_map
    [("v2-8", 29); ("v2-32", 29); ("v2-128", 27); ("v2-256", 26);
     ("v2-512", 25); ("v3-8", 29); ("v3-32", 29); ("v3-64", 28);
     ("v3-128", 27); ("v3-256", 26); ("v3-512", 25); ("v3-1024", 24)].

(** The world after package initialisation. *)
Definition boot (out : list string) (now : Z) (rnd : nat -> Z) : World :=
  mkWorld legacyNetwork_init tpuDeviceNetworkSizes_init out now rnd.

Inductive outcome (A : Type) : Type :=
| Ret (a : A) (w : World)
| Panic (msg : string)
| OutOfFuel.

Arguments Ret {A} a w.
Arguments Panic {A} msg.
Arguments OutOfFuel {A}.

Definition M (A : Type) : Type := World -> outcome A.

Definition ret {A : Type} (a : A) : M A := fun w => Ret a w.

Definition bind {A B : Type} (c : M A) (k : A -> M B) : M B :=
  fun w =>
    match c w with
    | Ret a w' => k a w'
    | Panic msg => Panic msg
    | OutOfFuel => OutOfFuel
    end.

Notation "x <- c ;; k" := (bind c (fun x => k))
  (at level 100, c at next level, right associativity).

Definition panic {A : Type} (msg : string) : M A := fun _ => Panic msg.

Definition read {A : Type} (f : World -> A) : M A := fun w => Ret (f w) w.

(** The value a call returns, whatever world it leaves. *)
Definition returned {A : Type} (o : outcome A) : option A :=
  match o with
  | Ret a _ => Some a
  | _ => None
  end.

(** [fmt.Println(s)] *)
Definition fmt_Println (s : string) : M unit :=
  fun w =>
    Ret tt (mkWorld (legacyNetwork w) (tpuDeviceNetworkSizes w)
              (stdout w ++ [s]) (clock w) (globalRand w)).

(** [time.Now().UnixNano()] *)
Definition time_Now_UnixNano : M Z := read clock.

(** [a / b] on [int]: truncated division, a panic when [b] is zero. *)
Definition div_int (a b : Z) : M Z :=
  if b =? 0 then panic "runtime error: integer divide by zero"
  else ret (wrap_int (Z.quot a b)).

(** [fmt.Sprintf("%s/%d", s, d)] for an unsigned [d]. *)
Definition fmt_Sprintf_s_slash_d (s : string) (d : Z) : string :=
  s +:+ "/" +:+ uitoa d.

(** What a [for ... range] body did last: run to its end, or [continue]. *)
Inductive ctl : Type := Fallthrough | Continue.

(** Instances of the parameters used to run the program on examples: an
    IPv6 parser that accepts nothing, a printer, and a generator that
    delivers the same value forever. *)
Definition noIPv6 (s : string) : IP := [].
Definition plainIPv6 (ip : IP) : string := hexString ip.
Definition constSource (v : Z) (seed : Z) (i : nat) : Z := v.

(** A freshly initialised world: nothing printed, the clock at 0. *)
Definition world0 : World := boot [] 0 (fun _ => 0).

(** The services behind [printCidrBlock]: the error of
    [google.DefaultClient] and of [compute.New] ([None] for [nil]), and, for
    a user agent and a project, the pages of routes that
    [Routes.List(project).Pages] hands to its callback, followed by the
    error that ends the listing ([None] when it ends with the last page). *)
Record Cloud : Type := mkCloud {
  google_DefaultClient : option error;
  compute_New : option error;
  Routes_List_Pages : string -> string -> list (list (option Route)) * option error
}.

(** A cloud whose calls succeed and whose listing delivers the given
    pages. *)
Definition cloudOf (pages : list (list (option Route))) : Cloud :=
  mkCloud None None (fun _ _ => (pages, None)).

Section Program.

(** [parseIPv6] of package [net] (the result is [nil] on a syntax error),
    the IPv6 branch of [IP.String], and the sequence of values the draws
    are taken from once the generator of [math/rand] was seeded by
    [rand.Seed(seed)]. Nothing is assumed of the three. *)
Variable parseIPv6 : string -> IP.
Variable ipv6String : IP -> string.
Variable rngSource : Z -> nat -> Z.

(** [rand.Seed(seed)] *)
Definition rand_Seed (seed : Z) : M unit :=
  fun w =>
    Ret tt (mkWorld (legacyNetwork w) (tpuDeviceNetworkSizes w)
              (stdout w) (clock w) (rngSource seed)).

(** [rand.Intn(n)]: a panic unless [n > 0], otherwise a number of [0, n),
    taken from the next value of the source. Which number the real
    generator picks is left open: it is some value of the range, and every
    sequence of such values is the image of some source. *)
Definition rand_Intn (n : Z) : M Z :=
  fun w =>
    if n <=? 0 then Panic "invalid argument to Intn"
    else Ret (globalRand w O mod n)
           (mkWorld (legacyNetwork w) (tpuDeviceNetworkSizes w)
              (stdout w) (clock w) (fun i => globalRand w (S i))).

(** [net.ParseCIDR(s)]: the address, the network, or a [*ParseError]. *)
Definition ParseCIDR (s : string) : (IP * IPNet) + error :=
  match byteIndex s "/" with
  | None => inr (ParseError "CIDR address" s)
  | Some i =>
      let addr := str_take i s in
      let mask := str_drop (S i) s in
      let ip4 := parseIPv4 addr in
      let iplen := if is_nil ip4 then IPv6len else IPv4len in
      let ip := if is_nil ip4 then parseIPv6 addr else ip4 in
      let '(n, j, ok) := dtoi mask in
      if is_nil ip || negb ok || negb (j =? str_len mask)%nat
         || (n <? 0) || (8 * Z.of_nat iplen <? n)
      then inr (ParseError "CIDR address" s)
      else
        let m := CIDRMask n (8 * Z.of_nat iplen) in
        inl (ip, mkIPNet (IP_Mask ip m) m)
  end.

(** [ip.String()] *)
Definition IP_String (ip : IP) : string :=
  if (length ip =? 0)%nat then "<nil>"
  else
    let p4 := To4 ip in
    if (length p4 =? IPv4len)%nat then
      uitoa (at_ p4 0) +:+ "." +:+ uitoa (at_ p4 1) +:+ "."
      +:+ uitoa (at_ p4 2) +:+ "." +:+ uitoa (at_ p4 3)
    else if negb (length ip =? IPv6len)%nat then "?" +:+ hexString ip
    else ipv6String ip.

(** [m.String()] *)
Definition IPMask_String (m : IPMask) : string :=
  if (length m =? 0)%nat then "<nil>" else hexString m.

(** [n.String()] *)
Definition IPNet_String (n : IPNet) : string :=
  let '(nn, m) := networkNumberAndMask n in
  if is_nil nn || is_nil m then "<nil>"
  else
    let l := simpleMaskLength m in
    if l =? -1 then IP_String nn +:+ "/" +:+ IPMask_String m
    else IP_String nn +:+ "/" +:+ uitoa l.

(** ** [selectCIDRBlock] *)

(** The first loop (lines 37-59): the routes of the target network are
    parsed and collected in [cidrBlocks]. The result is [inl cidrBlocks]
    when the loop runs to its end and [inr v] when it leaves the function
    through [return v]. The access [i.Network] of line 40 panics on a [nil]
    element. *)
Fixpoint selectCIDRBlock_routes (routes : list (option Route)) (network : string)
    (cidrBlocks : list IPNet) : M (list IPNet + string * option error) :=
  match routes with
  | [] => ret (inl cidrBlocks)
  | None :: _ => panic nilDereference
  | Some i :: rest =>
      if negb (strings_HasSuffix (Network i) network) then
        _ <- fmt_Println "continue";;
        selectCIDRBlock_routes rest network cidrBlocks
      else
        match ParseCIDR (DestRange i) with
        | inr err => ret (inr ("", Some err))
        | inl (_, ipNet) =>
            let '(maskSize, _) := IPMask_Size (IPNet_Mask ipNet) in
            if maskSize <? 8 then selectCIDRBlock_routes rest network cidrBlocks
            else
              legacy <- read legacyNetwork;;
              if IP_Equal legacy (IPNet_IP ipNet) && (maskSize <=? 16) then
                ret (inr ("", Some (Errorf
                  "Cloud TPUs cannot be used with legacy networks, please create a new GCP project" [])))
              else if (maskSize <=? 16)
                      && IPNet_Contains ipNet (IPv4 10 240 1 1)
                      && IPNet_Contains ipNet (IPv4 10 240 250 250) then
                ret (inr ("", Some (Errorf
                  "existing routing entries appear to entirely cover the IP-range ctpu uses" [])))
              else selectCIDRBlock_routes rest network (cidrBlocks ++ [ipNet])
        end
  end.

(** Lines 67-69: the two draws and the candidate address. *)
Definition drawCandidate (fourthOctetIncrement : Z) : M (Z * Z) :=
  r3 <- rand_Intn 254;;
  let thirdOctet := byte_of (wrap_int (r3 + 1)) in
  q <- div_int 255 fourthOctetIncrement;;
  r4 <- rand_Intn (wrap_int (wrap_int (q * fourthOctetIncrement) + 1));;
  let fourthOctet := byte_of r4 in
  ret (thirdOctet, fourthOctet).

(** Lines 70-74: the loop over [cidrBlocks]. Its body ends either by
    [continue] or by reaching its closing brace; in both cases the loop goes
    on with the next block. *)
Definition conflictBody (block : IPNet) (candidateIPAddress : IP) : ctl :=
  if IPNet_Contains block candidateIPAddress then Continue else Fallthrough.

Fixpoint conflictLoop (cidrBlocks : list IPNet) (candidateIPAddress : IP) : unit :=
  match cidrBlocks with
  | [] => tt
  | block :: rest =>
      match conflictBody block candidateIPAddress with
      | Continue => conflictLoop rest candidateIPAddress
      | Fallthrough => conflictLoop rest candidateIPAddress
      end
  end.

(** Lines 75-83: the candidate is printed, parsed again and returned. *)
Definition constructCIDR (candidateIPAddress : IP) (cidrBlockSize : Z)
  : string * option error :=
  match ParseCIDR (fmt_Sprintf_s_slash_d (IP_String candidateIPAddress) cidrBlockSize) with
  | inr err =>
      ("", Some (Errorf "error parsing constructed CIDR: %v" [arg_error err]))
  | inl (_, newCidr) =>
      let split := strings_Split (IPNet_String newCidr) "/" in
      if negb (length split =? 2)%nat then
        ("", Some (Errorf "error parsing cidr block %q" [arg_string (IPNet_String newCidr)]))
      else (IPNet_String newCidr, None)
  end.

(** One round of the [for] loop of lines 66-84: [Some v] when the round
    leaves the function through [return v], [None] when it reaches the end
    of the body. *)
Definition sampleBody (cidrBlocks : list IPNet) (cidrBlockSize fourthOctetIncrement : Z)
  : M (option (string * option error)) :=
  octets <- drawCandidate fourthOctetIncrement;;
  let candidateIPAddress := IPv4 10 240 (fst octets) (snd octets) in
  match conflictLoop cidrBlocks candidateIPAddress with
  | tt => ret (Some (constructCIDR candidateIPAddress cidrBlockSize))
  end.

(** The unbounded [for] loop, run for at most [fuel] rounds. *)
Fixpoint sampleLoop (fuel : nat) (cidrBlocks : list IPNet)
    (cidrBlockSize fourthOctetIncrement : Z) : M (string * option error) :=
  match fuel with
  | O => fun _ => OutOfFuel
  | S fuel' =>
      r <- sampleBody cidrBlocks cidrBlockSize fourthOctetIncrement;;
      match r with
      | Some v => ret v
      | None => sampleLoop fuel' cidrBlocks cidrBlockSize fourthOctetIncrement
      end
  end.

Definition selectCIDRBlock (fuel : nat) (routes : list (option Route)) (cidrBlockSize : Z)
    (network : string) : M (string * option error) :=
  r <- selectCIDRBlock_routes routes network [];;
  match r with
  | inr v => ret v
  | inl cidrBlocks =>
      let fourthOctetIncrement := shl_int 1 (sub_uint 32 cidrBlockSize) in
      now <- time_Now_UnixNano;;
      _ <- rand_Seed now;;
      sampleLoop fuel cidrBlocks cidrBlockSize fourthOctetIncrement
  end.

(** ** [cidrBlockSize] *)

Definition cidrBlockSize (hardwareType : string) : M (Z * option error) :=
  sizes <- read tpuDeviceNetworkSizes;;
  match sizes !! hardwareType with
  | None => ret (0, Some (Errorf "unknown TPU device size %q" [arg_string hardwareType]))
  | Some cidrBits => ret (cidrBits, None)
  end.

(** ** [printCidrBlock] *)

Variable cloud : Cloud.

(** [call.Pages(ctx, f)]: [f] is run on each page in turn, here as a
    function of the variables it captures; the first error of [f], or else
    the error that ends the listing, is returned. *)
Fixpoint Pages {S : Type} (pages : list (list (option Route))) (final : option error)
    (f : list (option Route) -> S -> S * option error) (s : S) : S * option error :=
  match pages with
  | [] => (s, final)
  | routeList :: rest =>
      let '(s', err) := f routeList s in
      match err with
      | Some e => (s', Some e)
      | None => Pages rest final f s'
      end
  end.

(** [fmt.Sprintf("ctpu/%s env/%s", a, b)] *)
Definition fmt_Sprintf_userAgent (a b : string) : string :=
  "ctpu/" +:+ a +:+ " env/" +:+ b.

Definition printCidrBlock (fuel : nat) (network project tpuHardware : string)
  : M (option error) :=
  match google_DefaultClient cloud with
  | Some err => ret (Some err)
  | None =>
      let userAgent := fmt_Sprintf_userAgent "1.9-dev" "gcloud" in
      match compute_New cloud with
      | Some err => ret (Some err)
      | None =>
          let '(pages, final) := Routes_List_Pages cloud userAgent project in
          let '(routeItems, err) :=
            Pages pages final
              (fun routeList routeItems => (routeItems ++ routeList, None)) [] in
          match err with
          | Some err => ret (Some err)
          | None =>
              size <- cidrBlockSize tpuHardware;;
              match snd size with
              | Some err => ret (Some err)
              | None =>
                  block <- selectCIDRBlock fuel routeItems (fst size) network;;
                  match snd block with
                  | Some err => ret (Some err)
                  | None => _ <- fmt_Println (fst block);; ret None
                  end
              end
          end
      end
  end.


(** ** Vocabulary of the statements *)

(** Value of a string of decimal digits read after the prefix value [acc],
    and the condition under which [dtoi] reads all of it. *)
Fixpoint digits_val (s : string) (acc : Z) : Z :=
  match s with
  | EmptyString => acc
  | String c s' => digits_val s' (acc * 10 + (Z_of_ascii c - 48))
  end.

Fixpoint digits_ok (s : string) (acc : Z) : bool :=
  match s with
  | EmptyString => true
  | String c s' =>
      is_digit c && (acc * 10 + (Z_of_ascii c - 48) <? big)
      && digits_ok s' (acc * 10 + (Z_of_ascii c - 48))
  end.

Fixpoint no_char (c : ascii) (s : string) : bool :=
  match s with
  | EmptyString => true
  | String a s' => negb (Ascii.eqb a c) && no_char c s'
  end.

Definition stops_dtoi (s : string) : bool :=
  match s with
  | EmptyString => true
  | String c _ => negb (is_digit c)
  end.

(** A decimal numeral as [uitoa] writes it for a value below [big]: digits
    only, of the right value, without a leading zero. *)
Definition numeral_ok (n : Z) : bool :=
  digits_ok (uitoa n) 0 && (digits_val (uitoa n) 0 =? n)
  && (0 <? str_len (uitoa n))%nat
  && no_char "/" (uitoa n) && no_char "." (uitoa n)
  && negb ((1 <? str_len (uitoa n))%nat && starts_with_zero (uitoa n)).

Definition is_byte (x : Z) : Prop := 0 <= x < 256.

Definition Zrange (lo : Z) (n : nat) : list Z := map (fun i => lo + Z.of_nat i) (seq 0 n).

(** Dotted decimal form of four octets. *)
Definition dotted (a b c d : Z) : string :=
  uitoa a +:+ "." +:+ uitoa b +:+ "." +:+ uitoa c +:+ "." +:+ uitoa d.

(** What a /n mask of 32 bits looks like. *)
Definition mask32_ok (n : Z) : bool :=
  match CIDRMask n 32 with
  | [m0; m1; m2; m3] =>
      (simpleMaskLength [m0; m1; m2; m3] =? n)
      && forallb (fun m => (0 <=? m) && (m <? 256)) [m0; m1; m2; m3]
  | _ => false
  end.

(** Replace the standard output of a world. *)
Definition with_stdout (out : list string) (w : World) : World :=
  mkWorld (legacyNetwork w) (tpuDeviceNetworkSizes w) out (clock w) (globalRand w).

(** The network [ParseCIDR] builds from the address 10.240.t.f and the
    prefix length [n]. *)
Definition blockOf (t f n : Z) : IPNet :=
  mkIPNet (and_bytes [10; 240; t; f] (CIDRMask n 32)) (CIDRMask n 32).

(** The canonical text of [blockOf t f n]. *)
Definition blockText (t f n : Z) : string :=
  match blockOf t f n with
  | mkIPNet [x0; x1; x2; x3] _ => dotted x0 x1 x2 x3 +:+ "/" +:+ uitoa n
  | _ => "<nil>"
  end.

(** A value in the range of [int]. *)
Definition in_int (x : Z) : Prop := - 2 ^ 63 <= x < 2 ^ 63.

(** The world after [k] values of the random source were consumed, and the
    world after the source was seeded from the clock. *)
Definition skip_rand (k : nat) (w : World) : World :=
  mkWorld (legacyNetwork w) (tpuDeviceNetworkSizes w) (stdout w) (clock w)
    (fun i => globalRand w (k + i)%nat).

Definition seeded (w : World) : World :=
  mkWorld (legacyNetwork w) (tpuDeviceNetworkSizes w) (stdout w) (clock w)
    (rngSource (clock w)).

(** An outcome with the standard output left out of the comparison. *)
Definition erase_stdout {A : Type} (o : outcome A) : outcome A :=
  match o with
  | Ret a w => Ret a (with_stdout [] w)
  | Panic msg => Panic msg
  | OutOfFuel => OutOfFuel
  end.

(** An element the first loop does not pass over as belonging to another
    network: a route of the target network, or a [nil] element. *)
Definition relevant (network : string) (r : option Route) : bool :=
  match r with
  | Some i => strings_HasSuffix (Network i) network
  | None => true
  end.

(** What one round of the first loop does with an element of the list. *)
Inductive verdict : Type :=
| NilElement
| Irrelevant
| TooWide
| Keep (ipNet : IPNet)
| Fail (e : error).

Definition legacyError : error :=
  Errorf "Cloud TPUs cannot be used with legacy networks, please create a new GCP project" [].

Definition exhaustedError : error :=
  Errorf "existing routing entries appear to entirely cover the IP-range ctpu uses" [].

Definition routeVerdict (legacy : IP) (network : string) (r : option Route) : verdict :=
  match r with
  | None => NilElement
  | Some i =>
  if negb (strings_HasSuffix (Network i) network) then Irrelevant
  else
    match ParseCIDR (DestRange i) with
    | inr err => Fail err
    | inl (_, ipNet) =>
        let maskSize := fst (IPMask_Size (IPNet_Mask ipNet)) in
        if maskSize <? 8 then TooWide
        else if IP_Equal legacy (IPNet_IP ipNet) && (maskSize <=? 16) then Fail legacyError
        else if (maskSize <=? 16)
                && IPNet_Contains ipNet (IPv4 10 240 1 1)
                && IPNet_Contains ipNet (IPv4 10 240 250 250) then Fail exhaustedError
        else Keep ipNet
    end
  end.

(** The errors the first loop can return. *)
Definition routeError (e : error) : Prop :=
  (exists text, e = ParseError "CIDR address" text)
  \/ e = legacyError \/ e = exhaustedError.

(** A route list with the destination range of every route of another
    network replaced by [d]. *)
Definition scrub (network d : string) (r : option Route) : option Route :=
  match r with
  | Some i => if relevant network r then r else Some (mkRoute (Network i) d)
  | None => None
  end.

(** Two networks overlap when either contains the base address of the
    other. *)
Definition overlaps (a b : IPNet) : bool :=
  IPNet_Contains a (IPNet_IP b) || IPNet_Contains b (IPNet_IP a).

(** Some block of a conflict set overlaps [b]. *)
Definition overlaps_some (cidrBlocks : list IPNet) (b : IPNet) : bool :=
  existsb (overlaps b) cidrBlocks.

(** Two routes of the target network that share the reserved range between
    them, and the networks they parse to. *)
Definition halves : list (option Route) :=
  [Some (mkRoute "default" "10.240.0.0/17"); Some (mkRoute "default" "10.240.128.0/17")].

Definition lowerHalf : IPNet := mkIPNet [10; 240; 0; 0] [255; 255; 128; 0].
Definition upperHalf : IPNet := mkIPNet [10; 240; 128; 0] [255; 255; 128; 0].

(** A mask of 16 bits or more starts with two full bytes. *)
Definition mask16_ok (n : Z) : bool :=
  match CIDRMask n 32 with
  | [255; 255; _; _] => true
  | _ => false
  end.

(** The reserved range 10.240.0.0/16. *)
Definition reservedRange : IPNet := mkIPNet [10; 240; 0; 0] [255; 255; 0; 0].

(** The element stops the first loop: a route that makes it return an
    error, or a [nil] element, on which it panics. *)
Definition failing (legacy : IP) (network : string) (r : option Route) : bool :=
  match routeVerdict legacy network r with
  | Fail _ | NilElement => true
  | _ => false
  end.

(** The networks the first loop keeps, in the order of the routes. *)
Definition keptBlocks (legacy : IP) (network : string) (routes : list (option Route))
  : list IPNet :=
  flat_map (fun i => match routeVerdict legacy network i with
                     | Keep ipNet => [ipNet]
                     | _ => []
                     end) routes.

(** The lines the first loop prints: one for each route of another
    network. *)
Definition continues (network : string) (routes : list (option Route)) : list string :=
  map (fun _ => "continue") (List.filter (fun i => negb (relevant network i)) routes).

(** A mask of at most 16 bits ends with two empty bytes, and its other
    bytes are bytes. *)
Definition mask_le16_ok (n : Z) : bool :=
  match CIDRMask n 32 with
  | [m0; m1; 0; 0] => (Z.land 255 m0 =? m0) && (Z.land 255 m1 =? m1)
  | _ => false
  end.

(** The last byte of a mask of 24 bits or more clears the fourth octet
    down to a multiple of the block size. *)
Definition mask_ge24_ok (n : Z) : bool :=
  match CIDRMask n 32 with
  | [255; 255; 255; m3] =>
      forallb (fun f => Z.land f m3 =? f - f mod 2 ^ (32 - n)) (Zrange 0 256)
  | _ => false
  end.

(** Between 16 and 24 bits the mask clears the fourth octet and cuts the
    third one down to a multiple of [2^(24 - n)]. *)
Definition mask_mid_ok (n : Z) : bool :=
  match CIDRMask n 32 with
  | [255; 255; m2; 0] =>
      forallb (fun t => Z.land t m2 =? t - t mod 2 ^ (24 - n)) (Zrange 0 256)
  | _ => false
  end.

(** The decimal text of [n] is too long for [dtoi]. *)
Definition dtoi_overflows (n : Z) : bool := negb (snd (dtoi (uitoa n))).

(** For a prefix length just below 2^64 the increment is not zero, 255
    divided by it is zero, and the text of the prefix length overflows. *)
Definition huge_ok (c : Z) : bool :=
  negb (shl_int 1 (sub_uint 32 c) =? 0)
  && (Z.quot 255 (shl_int 1 (sub_uint 32 c)) =? 0)
  && dtoi_overflows c.

(** ** Strings *)

Lemma Zrange_In lo n x : lo <= x < lo + Z.of_nat n -> In x (Zrange lo n).
Proof.
  intros H. unfold Zrange. apply in_map_iff.
  exists (Z.to_nat (x - lo)). split; [lia|].
  apply in_seq. lia.
Qed.

Lemma str_len_app a b : str_len (a +:+ b) = (str_len a + str_len b)%nat.
Proof. unfold str_len. induction a; simpl; congruence. Qed.

Lemma str_drop_app a b : str_drop (str_len a) (a +:+ b) = b.
Proof. induction a; simpl; auto. Qed.

Lemma str_drop_app_sep a c b : str_drop (str_len a + 1) (a +:+ String c b) = b.
Proof. induction a; simpl; auto. Qed.

Lemma str_take_app a b : str_take (str_len a) (a +:+ b) = a.
Proof. induction a; simpl; congruence. Qed.

Lemma str_app_assoc a b c : (a +:+ b) +:+ c = a +:+ (b +:+ c).
Proof. induction a; simpl; congruence. Qed.

Lemma no_char_app c a b : no_char c (a +:+ b) = no_char c a && no_char c b.
Proof. induction a; simpl; [reflexivity|]. rewrite IHa. apply andb_assoc. Qed.

Lemma byteIndex_app c a b :
  no_char c a = true -> byteIndex (a +:+ String c b) c = Some (str_len a).
Proof.
  induction a as [|x a IH]; simpl; intros H.
  - now rewrite Ascii.eqb_refl.
  - apply andb_true_iff in H as [Hx Ha].
    apply negb_true_iff in Hx. rewrite Hx, (IH Ha). reflexivity.
Qed.

Lemma strings_Index_none c b :
  no_char c b = true -> strings_Index b (String c "") = None.
Proof.
  induction b as [|x b IH]; simpl; intros H; [reflexivity|].
  apply andb_true_iff in H as [Hx Hb]. apply negb_true_iff in Hx.
  destruct (ascii_dec c x) as [->|Hne].
  - now rewrite Ascii.eqb_refl in Hx.
  - now rewrite (IH Hb).
Qed.

Lemma strings_Index_app c a b :
  no_char c a = true ->
  strings_Index (a +:+ String c b) (String c "") = Some (str_len a).
Proof.
  induction a as [|x a IH]; simpl; intros H.
  - destruct (ascii_dec c c); [|congruence]. now destruct b.
  - apply andb_true_iff in H as [Hx Ha]. apply negb_true_iff in Hx.
    destruct (ascii_dec c x) as [->|Hne].
    + now rewrite Ascii.eqb_refl in Hx.
    + now rewrite (IH Ha).
Qed.

Lemma genSplit_none k c b :
  no_char c b = true -> genSplit k b (String c "") = [b].
Proof. intros H. destruct k; simpl; [reflexivity|]. now rewrite strings_Index_none. Qed.

(** Splitting [a/b] on the slash gives the two parts when neither holds a
    slash. *)
Lemma strings_Split_two a b :
  no_char "/" a = true -> no_char "/" b = true ->
  strings_Split (a +:+ "/" +:+ b) "/" = [a; b].
Proof.
  intros Ha Hb. unfold strings_Split. simpl String.eqb.
  change ("/" +:+ b) with (String "/" b).
  rewrite str_len_app. simpl str_len.
  replace (str_len a + S (str_len b))%nat with (S (str_len a + str_len b)) by lia.
  simpl genSplit. rewrite strings_Index_app by assumption.
  rewrite str_take_app. f_equal.
  simpl str_len. change ("/" +:+ b) with (String "/" b).
  rewrite str_drop_app_sep.
  now apply genSplit_none.
Qed.

(** ** Numerals *)

Lemma dtoi_loop_app ds rest acc i :
  digits_ok ds acc = true ->
  dtoi_loop (ds +:+ rest) acc i = dtoi_loop rest (digits_val ds acc) (i + str_len ds).
Proof.
  revert acc i. induction ds as [|c ds IH]; simpl; intros acc i H.
  - now rewrite Nat.add_0_r.
  - apply andb_true_iff in H as [H Hds]. apply andb_true_iff in H as [Hc Hb].
    rewrite Hc. apply Z.ltb_lt in Hb.
    destruct (big <=? acc * 10 + (Z_of_ascii c - 48)) eqn:E; [apply Z.leb_le in E; lia|].
    rewrite (IH _ _ Hds). f_equal. unfold str_len. simpl. lia.
Qed.

Lemma dtoi_loop_stop rest n i :
  stops_dtoi rest = true -> dtoi_loop rest n (S i) = (n, S i, true).
Proof.
  destruct rest as [|c rest]; simpl; [reflexivity|].
  intros H. apply negb_true_iff in H. now rewrite H.
Qed.

Lemma numeral_ok_byte n : 0 <= n < 256 -> numeral_ok n = true.
Proof.
  intros H.
  assert (forallb numeral_ok (Zrange 0 256) = true) as A by (vm_compute; reflexivity).
  rewrite forallb_forall in A. apply A, Zrange_In. lia.
Qed.

Lemma numeral_ok_parts n :
  numeral_ok n = true ->
  digits_ok (uitoa n) 0 = true
  /\ digits_val (uitoa n) 0 = n
  /\ (0 < str_len (uitoa n))%nat
  /\ no_char "/" (uitoa n) = true
  /\ no_char "." (uitoa n) = true
  /\ (1 <? str_len (uitoa n))%nat && starts_with_zero (uitoa n) = false.
Proof.
  unfold numeral_ok. intros H.
  apply andb_true_iff in H as [H H6]. apply andb_true_iff in H as [H H5].
  apply andb_true_iff in H as [H H4]. apply andb_true_iff in H as [H H3].
  apply andb_true_iff in H as [H1 H2].
  apply Z.eqb_eq in H2. apply Nat.ltb_lt in H3. apply negb_true_iff in H6. auto 10.
Qed.

Lemma dtoi_numeral n rest :
  numeral_ok n = true -> stops_dtoi rest = true ->
  dtoi (uitoa n +:+ rest) = (n, str_len (uitoa n), true).
Proof.
  intros H Hrest.
  destruct (numeral_ok_parts n H) as (H1 & H2 & H3 & _).
  unfold dtoi. rewrite dtoi_loop_app by assumption.
  rewrite H2.
  destruct (str_len (uitoa n)) as [|k] eqn:E; [lia|].
  simpl. now apply dtoi_loop_stop.
Qed.

Lemma starts_with_zero_app u rest :
  (0 < str_len u)%nat -> starts_with_zero (u +:+ rest) = starts_with_zero u.
Proof. destruct u; simpl; [lia|reflexivity]. Qed.

(** ** Addresses and networks *)

Lemma land_byte a b : is_byte a -> 0 <= b -> is_byte (Z.land a b).
Proof.
  unfold is_byte. intros Ha Hb. split.
  - apply Z.land_nonneg. lia.
  - destruct a as [|p|p], b as [|q|q]; cbv [Z.land]; try lia.
    pose proof (N.land_le_l (Npos p) (Npos q)) as H. cbv [N.land] in H. lia.
Qed.

Lemma byte_of_byte x : is_byte x -> byte_of x = x.
Proof. unfold is_byte, byte_of. intros H. now apply Z.mod_small. Qed.

Lemma parseIPv4_loop_first todo s p :
  s <> "" ->
  parseIPv4_loop (S todo) 0 s p =
  let '(n, c, ok) := dtoi s in
  if negb ok || (255 <? n) then None
  else if (1 <? c)%nat && starts_with_zero s then None
  else parseIPv4_loop todo 1 (str_drop c s) (p ++ [byte_of n]).
Proof. destruct s; [congruence|reflexivity]. Qed.

Lemma numeral_nonempty n rest : numeral_ok n = true -> uitoa n +:+ rest <> "".
Proof.
  intros H. destruct (numeral_ok_parts n H) as (_ & _ & H3 & _).
  destruct (uitoa n); simpl in *; [lia|discriminate].
Qed.

Lemma parseIPv4_octet_first todo n rest p :
  is_byte n -> stops_dtoi rest = true ->
  parseIPv4_loop (S todo) 0 (uitoa n +:+ rest) p =
  parseIPv4_loop todo 1 rest (p ++ [n]).
Proof.
  intros Hn Hrest. pose proof (numeral_ok_byte n Hn) as Hok.
  destruct (numeral_ok_parts n Hok) as (_ & _ & Hlen & _ & _ & Hz).
  rewrite parseIPv4_loop_first by now apply numeral_nonempty.
  rewrite dtoi_numeral by assumption. simpl negb. simpl orb.
  destruct (255 <? n) eqn:E; [apply Z.ltb_lt in E; unfold is_byte in Hn; lia|].
  rewrite starts_with_zero_app, Hz by exact Hlen.
  now rewrite str_drop_app, byte_of_byte.
Qed.

Lemma parseIPv4_octet_next todo i n rest p :
  is_byte n -> stops_dtoi rest = true ->
  parseIPv4_loop (S todo) (S i) ("." +:+ uitoa n +:+ rest) p =
  parseIPv4_loop todo (S (S i)) rest (p ++ [n]).
Proof.
  intros Hn Hrest. pose proof (numeral_ok_byte n Hn) as Hok.
  change ("." +:+ uitoa n +:+ rest) with (String "." (uitoa n +:+ rest)).
  destruct (numeral_ok_parts n Hok) as (_ & _ & Hlen & _ & _ & Hz).
  simpl parseIPv4_loop.
  rewrite dtoi_numeral by assumption. simpl negb. simpl orb.
  destruct (255 <? n) eqn:E; [apply Z.ltb_lt in E; unfold is_byte in Hn; lia|].
  rewrite starts_with_zero_app, Hz by exact Hlen.
  now rewrite str_drop_app, byte_of_byte.
Qed.

(** [parseIPv4] reads back what the dotted decimal printer writes. *)
Lemma parseIPv4_dotted a b c d :
  is_byte a -> is_byte b -> is_byte c -> is_byte d ->
  parseIPv4 (dotted a b c d) = IPv4 a b c d.
Proof.
  intros Ha Hb Hc Hd. unfold parseIPv4, dotted, IPv4len.
  rewrite parseIPv4_octet_first by (auto; reflexivity).
  rewrite parseIPv4_octet_next by (auto; reflexivity).
  rewrite parseIPv4_octet_next by (auto; reflexivity).
  replace (uitoa d) with (uitoa d +:+ "").
  2:{ generalize (uitoa d). intros u. induction u; simpl; congruence. }
  rewrite parseIPv4_octet_next by (auto; reflexivity).
  reflexivity.
Qed.

Lemma no_slash_dotted a b c d :
  is_byte a -> is_byte b -> is_byte c -> is_byte d ->
  no_char "/" (dotted a b c d) = true.
Proof.
  intros Ha Hb Hc Hd. unfold dotted.
  assert (forall n, is_byte n -> no_char "/" (uitoa n) = true) as A.
  { intros n Hn. pose proof (numeral_ok_byte n Hn) as H.
    now destruct (numeral_ok_parts n H) as (_ & _ & _ & ? & _). }
  rewrite !no_char_app, !A by assumption. reflexivity.
Qed.

Lemma mask32_ok_all n : 0 <= n <= 32 -> mask32_ok n = true.
Proof.
  intros H.
  assert (forallb mask32_ok (Zrange 0 33) = true) as A by (vm_compute; reflexivity).
  rewrite forallb_forall in A. apply A, Zrange_In. lia.
Qed.

Lemma CIDRMask_32 n :
  0 <= n <= 32 ->
  exists m0 m1 m2 m3,
    CIDRMask n 32 = [m0; m1; m2; m3]
    /\ simpleMaskLength [m0; m1; m2; m3] = n
    /\ 0 <= m0 /\ 0 <= m1 /\ 0 <= m2 /\ 0 <= m3.
Proof.
  intros H. pose proof (mask32_ok_all n H) as A. unfold mask32_ok in A.
  destruct (CIDRMask n 32) as [|m0 [|m1 [|m2 [|m3 [|? ?]]]]]; try discriminate.
  exists m0, m1, m2, m3. apply andb_true_iff in A as [A B].
  apply Z.eqb_eq in A. simpl in B.
  repeat (apply andb_true_iff in B as [? B]).
  repeat match goal with H : (_ <=? _) = true |- _ => apply Z.leb_le in H end.
  repeat match goal with H : (_ && _) = true |- _ => apply andb_true_iff in H as [? ?] end.
  repeat match goal with H : (_ <=? _) = true |- _ => apply Z.leb_le in H end.
  auto 10.
Qed.

(** ** Printing and parsing the candidate *)

Lemma IP_String_IPv4 a b c d : IP_String (IPv4 a b c d) = dotted a b c d.
Proof. reflexivity. Qed.

Lemma IP_String_4 a b c d : IP_String [a; b; c; d] = dotted a b c d.
Proof. reflexivity. Qed.

Lemma uitoa_numeral_32 n : 0 <= n <= 32 -> numeral_ok n = true.
Proof. intros H. apply numeral_ok_byte. lia. Qed.

Lemma ParseCIDR_dotted a b c d n :
  is_byte a -> is_byte b -> is_byte c -> is_byte d -> 0 <= n <= 32 ->
  ParseCIDR (fmt_Sprintf_s_slash_d (dotted a b c d) n)
  = inl (IPv4 a b c d,
         mkIPNet (and_bytes [a; b; c; d] (CIDRMask n 32)) (CIDRMask n 32)).
Proof.
  intros Ha Hb Hc Hd Hn. unfold ParseCIDR, ParseCIDR, fmt_Sprintf_s_slash_d.
  change ("/" +:+ uitoa n) with (String "/" (uitoa n)).
  rewrite byteIndex_app by now apply no_slash_dotted.
  rewrite str_take_app.
  replace (S (str_len (dotted a b c d))) with (str_len (dotted a b c d) + 1)%nat by lia.
  rewrite str_drop_app_sep, parseIPv4_dotted by assumption.
  change (is_nil (IPv4 a b c d)) with false. cbv iota.
  pose proof (uitoa_numeral_32 n Hn) as Hok.
  replace (uitoa n) with (uitoa n +:+ "") at 1.
  2:{ generalize (uitoa n). intros u. induction u; simpl; congruence. }
  rewrite dtoi_numeral by (auto; reflexivity).
  rewrite Nat.eqb_refl. simpl negb. simpl orb.
  destruct (n <? 0) eqn:E1; [apply Z.ltb_lt in E1; lia|].
  change (8 * Z.of_nat IPv4len) with 32.
  destruct (32 <? n) eqn:E2; [apply Z.ltb_lt in E2; lia|].
  destruct (CIDRMask_32 n Hn) as (m0 & m1 & m2 & m3 & Hm & _).
  rewrite Hm. reflexivity.
Qed.


Lemma and_bytes_4 a b c d m0 m1 m2 m3 :
  and_bytes [a; b; c; d] [m0; m1; m2; m3]
  = [Z.land a m0; Z.land b m1; Z.land c m2; Z.land d m3].
Proof. reflexivity. Qed.

(** The text of a /n network with a four byte address. *)
Lemma IPNet_String_4 a b c d n :
  0 <= n <= 32 ->
  IPNet_String (mkIPNet [a; b; c; d] (CIDRMask n 32))
  = dotted a b c d +:+ "/" +:+ uitoa n.
Proof.
  intros Hn. destruct (CIDRMask_32 n Hn) as (m0 & m1 & m2 & m3 & Hm & Hl & _).
  rewrite Hm. unfold IPNet_String, IPNet_String.
  change (networkNumberAndMask (mkIPNet [a; b; c; d] [m0; m1; m2; m3]))
    with ([a; b; c; d], [m0; m1; m2; m3]).
  cbv beta iota. rewrite Hl. simpl is_nil. simpl orb. cbv iota.
  destruct (n =? -1) eqn:E; [apply Z.eqb_eq in E; lia|].
  reflexivity.
Qed.

Lemma blockOf_shape t f n :
  is_byte t -> is_byte f -> 0 <= n <= 32 ->
  exists x0 x1 x2 x3,
    blockOf t f n = mkIPNet [x0; x1; x2; x3] (CIDRMask n 32)
    /\ is_byte x0 /\ is_byte x1 /\ is_byte x2 /\ is_byte x3
    /\ blockText t f n = dotted x0 x1 x2 x3 +:+ "/" +:+ uitoa n.
Proof.
  intros Ht Hf Hn. unfold blockText, blockOf.
  destruct (CIDRMask_32 n Hn) as (m0 & m1 & m2 & m3 & Hm & _ & H0 & H1 & H2 & H3).
  rewrite Hm, and_bytes_4.
  exists (Z.land 10 m0), (Z.land 240 m1), (Z.land t m2), (Z.land f m3).
  repeat split; try (apply land_byte; auto; unfold is_byte; lia).
Qed.

(** Lines 75-83 on a candidate 10.240.t.f and a prefix length of at most 32:
    the constructed text parses, the canonical text has two parts, and the
    canonical text is returned. *)
Lemma constructCIDR_ok t f n :
  is_byte t -> is_byte f -> 0 <= n <= 32 ->
  constructCIDR (IPv4 10 240 t f) n = (blockText t f n, None).
Proof.
  intros Ht Hf Hn. unfold constructCIDR, constructCIDR.
  rewrite IP_String_IPv4.
  rewrite ParseCIDR_dotted by (auto; unfold is_byte; lia).
  fold (blockOf t f n).
  destruct (blockOf_shape t f n Ht Hf Hn)
    as (x0 & x1 & x2 & x3 & Hb & B0 & B1 & B2 & B3 & Htxt).
  rewrite Hb, Htxt, IPNet_String_4 by assumption.
  rewrite strings_Split_two.
  - reflexivity.
  - now apply no_slash_dotted.
  - pose proof (uitoa_numeral_32 n Hn) as H.
    now destruct (numeral_ok_parts n H) as (_ & _ & _ & ? & _).
Qed.


(** ** The two draws *)

Lemma wrap_int_id x : in_int x -> wrap_int x = x.
Proof.
  unfold in_int, wrap_int. intros H.
  rewrite Z.mod_small; lia.
Qed.

Lemma shl_int_1_in_int s : in_int (shl_int 1 s).
Proof.
  unfold shl_int. destruct (64 <=? s); [unfold in_int; lia|].
  unfold wrap_int, in_int.
  pose proof (Z.mod_pos_bound (Z.shiftl 1 s + 2 ^ 63) (2 ^ 64)). lia.
Qed.

(** The increment for a prefix length of at most 32 is the block size. *)
Lemma increment_small c :
  0 <= c <= 32 -> shl_int 1 (sub_uint 32 c) = 2 ^ (32 - c).
Proof.
  intros H. unfold sub_uint, wrap_uint, shl_int.
  rewrite Z.mod_small by lia.
  destruct (64 <=? 32 - c) eqn:E; [apply Z.leb_le in E; lia|].
  rewrite Z.shiftl_1_l. apply wrap_int_id. unfold in_int.
  assert (0 < 2 ^ (32 - c)) by (apply Z.pow_pos_nonneg; lia).
  assert (2 ^ (32 - c) <= 2 ^ 32) by (apply Z.pow_le_mono_r; lia).
  lia.
Qed.

(** The increment for a prefix length above 32 (and below 2^64 - 31). *)
Lemma increment_zero c :
  32 < c <= 2 ^ 64 - 32 -> shl_int 1 (sub_uint 32 c) = 0.
Proof.
  intros H. unfold sub_uint, wrap_uint, shl_int.
  replace ((32 - c) mod 2 ^ 64) with (32 - c + 2 ^ 64).
  - destruct (64 <=? 32 - c + 2 ^ 64) eqn:E; [reflexivity|apply Z.leb_gt in E; lia].
  - rewrite <- (Z.mod_small (32 - c + 2 ^ 64) (2 ^ 64)) at 1 by lia.
    rewrite <- (Z.mul_1_l (2 ^ 64)) at 1. apply Z.mod_add. lia.
Qed.

(** [(255 / inc) * inc] is the largest multiple of [inc] up to 255. *)
Lemma quot_255 inc :
  inc <> 0 -> 0 <= Z.quot 255 inc * inc <= 255 /\ -255 <= Z.quot 255 inc <= 255.
Proof.
  intros H.
  pose proof (Z.quot_rem' 255 inc) as E.
  assert (0 <= Z.rem 255 inc) by (apply Z.rem_nonneg; lia).
  destruct (Z_lt_le_dec 0 inc) as [Hp|Hn].
  - assert (0 <= Z.quot 255 inc) by (apply Z.quot_pos; lia).
    nia.
  - assert (Z.quot 255 inc = - Z.quot 255 (- inc)) as Eq
      by (rewrite Z.quot_opp_r by lia; lia).
    assert (0 <= Z.quot 255 (- inc)) by (apply Z.quot_pos; lia).
    nia.
Qed.

Lemma drawCandidate_zero w :
  drawCandidate 0 w = Panic "runtime error: integer divide by zero".
Proof. reflexivity. Qed.

Lemma drawCandidate_run inc w :
  inc <> 0 -> in_int inc ->
  drawCandidate inc w
  = Ret (globalRand w 0%nat mod 254 + 1,
         globalRand w 1%nat mod (Z.quot 255 inc * inc + 1))
        (skip_rand 2 w).
Proof.
  intros Hz Hi. destruct (quot_255 inc Hz) as [Hq Hq'].
  pose proof (Z.mod_pos_bound (globalRand w 0%nat) 254 ltac:(lia)) as H3.
  pose proof (Z.mod_pos_bound (globalRand w 1%nat) (Z.quot 255 inc * inc + 1) ltac:(lia)) as H4.
  unfold drawCandidate, bind, rand_Intn, div_int, ret, panic.
  change (254 <=? 0) with false. cbv iota.
  destruct (inc =? 0) eqn:E; [apply Z.eqb_eq in E; contradiction|].
  cbv beta iota.
  rewrite (wrap_int_id (Z.quot 255 inc)) by (unfold in_int; lia).
  rewrite (wrap_int_id (Z.quot 255 inc * inc)) by (unfold in_int; lia).
  rewrite (wrap_int_id (Z.quot 255 inc * inc + 1)) by (unfold in_int; lia).
  destruct (Z.quot 255 inc * inc + 1 <=? 0) eqn:E2; [apply Z.leb_le in E2; lia|].
  cbn [globalRand].
  rewrite (wrap_int_id (globalRand w 0%nat mod 254 + 1)) by (unfold in_int; lia).
  rewrite !byte_of_byte by (unfold is_byte; lia).
  reflexivity.
Qed.

(** The draws neither read nor write the standard output. *)
Lemma drawCandidate_stdout inc o w :
  erase_stdout (drawCandidate inc (with_stdout o w)) = erase_stdout (drawCandidate inc w).
Proof.
  unfold drawCandidate, bind, rand_Intn, div_int, ret, panic.
  change (254 <=? 0) with false. cbv iota.
  destruct (inc =? 0); [reflexivity|]. cbv beta iota.
  cbn [globalRand with_stdout].
  match goal with |- context [?n <=? 0] => destruct (n <=? 0) end; reflexivity.
Qed.

(** ** The sampling loop *)

Lemma conflictLoop_tt cidrBlocks candidate : conflictLoop cidrBlocks candidate = tt.
Proof. now destruct (conflictLoop cidrBlocks candidate). Qed.

(** One round of the loop is the draw followed by lines 75-83: the conflict
    set plays no part. *)
Lemma sampleBody_run cidrBlocks c inc w :
  sampleBody cidrBlocks c inc w
  = match drawCandidate inc w with
    | Ret (t, f) w' => Ret (Some (constructCIDR (IPv4 10 240 t f) c)) w'
    | Panic msg => Panic msg
    | OutOfFuel => OutOfFuel
    end.
Proof.
  unfold sampleBody, sampleBody, bind.
  destruct (drawCandidate inc w) as [[t f] w'| |]; try reflexivity.
  cbn [fst snd]. now rewrite conflictLoop_tt.
Qed.

Lemma sampleLoop_run fuel cidrBlocks c inc w :
  sampleLoop (S fuel) cidrBlocks c inc w
  = match drawCandidate inc w with
    | Ret (t, f) w' => Ret (constructCIDR (IPv4 10 240 t f) c) w'
    | Panic msg => Panic msg
    | OutOfFuel => OutOfFuel
    end.
Proof.
  cbn [sampleLoop]. unfold bind. rewrite sampleBody_run.
  destruct (drawCandidate inc w) as [[t f] w'| |]; reflexivity.
Qed.

Lemma sampleLoop_stdout fuel cidrBlocks c inc o w :
  erase_stdout (sampleLoop fuel cidrBlocks c inc (with_stdout o w))
  = erase_stdout (sampleLoop fuel cidrBlocks c inc w).
Proof.
  destruct fuel as [|fuel]; [reflexivity|].
  rewrite !sampleLoop_run.
  pose proof (drawCandidate_stdout inc o w) as H.
  destruct (drawCandidate inc (with_stdout o w)) as [[t f] w1| |],
           (drawCandidate inc w) as [[t' f'] w2| |];
    unfold erase_stdout in H; try discriminate; try reflexivity.
  - assert (with_stdout [] w1 = with_stdout [] w2) as Hw by congruence.
    assert (t = t' /\ f = f') as [-> ->] by (split; congruence).
    unfold erase_stdout. now rewrite Hw.
  - unfold erase_stdout. congruence.
Qed.


(** ** The loop over the routes *)

Lemma with_stdout_same w : with_stdout (stdout w) w = w.
Proof. now destruct w. Qed.

Lemma with_stdout_twice o o' w : with_stdout o (with_stdout o' w) = with_stdout o w.
Proof. reflexivity. Qed.

(** One round of the loop, by the verdict on the element at hand. *)
Lemma routes_step i rest network acc w :
  selectCIDRBlock_routes (i :: rest) network acc w
  = match routeVerdict (legacyNetwork w) network i with
    | NilElement => Panic nilDereference
    | Irrelevant =>
        selectCIDRBlock_routes rest network acc
          (with_stdout (stdout w ++ ["continue"]) w)
    | TooWide => selectCIDRBlock_routes rest network acc w
    | Keep ipNet => selectCIDRBlock_routes rest network (acc ++ [ipNet]) w
    | Fail e => Ret (inr ("", Some e)) w
    end.
Proof.
  destruct i as [i|]; [|reflexivity].
  cbn [selectCIDRBlock_routes].
  unfold routeVerdict.
  destruct (strings_HasSuffix (Network i) network); cbn [negb]; [|reflexivity].
  destruct (ParseCIDR (DestRange i)) as [[ip ipNet]|err]; [|reflexivity].
  destruct (IPMask_Size (IPNet_Mask ipNet)) as [maskSize bits]. cbn [fst].
  destruct (maskSize <? 8); [reflexivity|].
  unfold bind, read.
  destruct (IP_Equal (legacyNetwork w) (IPNet_IP ipNet) && (maskSize <=? 16));
    [reflexivity|].
  destruct ((maskSize <=? 16) && IPNet_Contains ipNet (IPv4 10 240 1 1)
            && IPNet_Contains ipNet (IPv4 10 240 250 250)); reflexivity.
Qed.

Lemma verdict_nil legacy network r :
  routeVerdict legacy network r = NilElement <-> r = None.
Proof.
  destruct r as [i|]; [|split; reflexivity].
  unfold routeVerdict. split; [|discriminate].
  destruct (negb _); [discriminate|].
  destruct (ParseCIDR (DestRange i)) as [[ip ipNet]|err]; [|discriminate].
  repeat match goal with |- context [if ?b then _ else _] => destruct b end;
    discriminate.
Qed.

(** The loop comes to an end or panics on a [nil] element; it changes
    nothing in the world but the standard output, and what it does does not
    depend on what was printed before. *)
Lemma routes_run routes network :
  forall acc w,
    (exists r out, forall o,
        selectCIDRBlock_routes routes network acc (with_stdout o w)
        = Ret r (with_stdout (o ++ out) w))
    \/ (forall o,
          selectCIDRBlock_routes routes network acc (with_stdout o w)
          = Panic nilDereference).
Proof.
  induction routes as [|i rest IH]; intros acc w.
  - left. exists (inl acc), []. intros o. now rewrite app_nil_r.
  - destruct (routeVerdict (legacyNetwork w) network i) eqn:V.
    + right. intros o. rewrite routes_step. cbn [legacyNetwork with_stdout].
      now rewrite V.
    + destruct (IH acc w) as [(r & out & H)|H].
      * left. exists r, ("continue" :: out). intros o.
        rewrite routes_step. cbn [legacyNetwork with_stdout stdout]. rewrite V.
        rewrite with_stdout_twice, (H (o ++ ["continue"])). now rewrite <- app_assoc.
      * right. intros o.
        rewrite routes_step. cbn [legacyNetwork with_stdout stdout]. rewrite V.
        now rewrite with_stdout_twice, (H (o ++ ["continue"])).
    + destruct (IH acc w) as [(r & out & H)|H].
      * left. exists r, out. intros o.
        rewrite routes_step. cbn [legacyNetwork with_stdout]. rewrite V. apply H.
      * right. intros o.
        rewrite routes_step. cbn [legacyNetwork with_stdout]. rewrite V. apply H.
    + destruct (IH (acc ++ [ipNet]) w) as [(r & out & H)|H].
      * left. exists r, out. intros o.
        rewrite routes_step. cbn [legacyNetwork with_stdout]. rewrite V. apply H.
      * right. intros o.
        rewrite routes_step. cbn [legacyNetwork with_stdout]. rewrite V. apply H.
    + left. exists (inr ("", Some e)), []. intros o.
      rewrite routes_step. cbn [legacyNetwork with_stdout]. rewrite V.
      now rewrite app_nil_r.
Qed.

Lemma routes_total routes network acc w :
  (exists r out,
      selectCIDRBlock_routes routes network acc w = Ret r (with_stdout (stdout w ++ out) w))
  \/ selectCIDRBlock_routes routes network acc w = Panic nilDereference.
Proof.
  destruct (routes_run routes network acc w) as [(r & out & H)|H].
  - left. exists r, out. rewrite <- (H (stdout w)). now rewrite with_stdout_same.
  - right. rewrite <- (H (stdout w)). now rewrite with_stdout_same.
Qed.

(** What the loop returns, whatever was printed before. *)
Lemma routes_returned_stdout routes network acc o w :
  returned (selectCIDRBlock_routes routes network acc (with_stdout o w))
  = returned (selectCIDRBlock_routes routes network acc w).
Proof.
  destruct (routes_run routes network acc w) as [(r & out & H)|H].
  - rewrite (H o). rewrite <- (with_stdout_same w) at 2. now rewrite (H (stdout w)).
  - rewrite (H o). rewrite <- (with_stdout_same w). now rewrite (H (stdout w)).
Qed.

(** A failing route stops the loop, wherever it stands: the loop returns an
    error, unless it came upon a [nil] element first. *)
Lemma routes_fail routes network i e :
  In i routes ->
  forall acc w,
    routeVerdict (legacyNetwork w) network i = Fail e ->
    (exists e' w', selectCIDRBlock_routes routes network acc w = Ret (inr ("", Some e')) w')
    \/ selectCIDRBlock_routes routes network acc w = Panic nilDereference.
Proof.
  induction routes as [|j rest IH]; intros Hin acc w V; [destruct Hin|].
  rewrite routes_step.
  destruct Hin as [->|Hin]; [rewrite V; eauto|].
  destruct (routeVerdict (legacyNetwork w) network j); eauto.
Qed.

Lemma routes_fail_no_nil routes network i e :
  In i routes -> ~ In None routes ->
  forall acc w,
    routeVerdict (legacyNetwork w) network i = Fail e ->
    exists e' w', selectCIDRBlock_routes routes network acc w = Ret (inr ("", Some e')) w'.
Proof.
  induction routes as [|j rest IH]; intros Hin Hnil acc w V; [destruct Hin|].
  assert (~ In None rest) as Hrest by (intros H; apply Hnil; now right).
  rewrite routes_step.
  destruct (routeVerdict (legacyNetwork w) network j) eqn:Vj.
  - apply verdict_nil in Vj. subst j. exfalso. apply Hnil. now left.
  - destruct Hin as [->|Hin]; [congruence|]. now apply IH.
  - destruct Hin as [->|Hin]; [congruence|]. now apply IH.
  - destruct Hin as [->|Hin]; [congruence|]. now apply IH.
  - eauto.
Qed.

(** The loop over [pre ++ post] when the loop over [pre] runs to its end. *)
Lemma routes_app pre post network :
  forall acc w cidrBlocks w1,
    selectCIDRBlock_routes pre network acc w = Ret (inl cidrBlocks) w1 ->
    selectCIDRBlock_routes (pre ++ post) network acc w
    = selectCIDRBlock_routes post network cidrBlocks w1.
Proof.
  induction pre as [|j rest IH]; intros acc w cidrBlocks w1 H.
  - cbn in H. unfold ret in H. now injection H as -> ->.
  - rewrite <- app_comm_cons, routes_step. rewrite routes_step in H.
    destruct (routeVerdict (legacyNetwork w) network j); try (now apply IH);
      discriminate.
Qed.

Lemma routes_legacyNetwork routes network acc w r w1 :
  selectCIDRBlock_routes routes network acc w = Ret r w1 ->
  legacyNetwork w1 = legacyNetwork w /\ tpuDeviceNetworkSizes w1 = tpuDeviceNetworkSizes w
  /\ clock w1 = clock w /\ globalRand w1 = globalRand w.
Proof.
  destruct (routes_total routes network acc w) as [(r' & out & H)|H];
    rewrite H; [|discriminate].
  intros E. injection E as _ <-. repeat split.
Qed.

Lemma verdict_irrelevant legacy network i :
  relevant network i = false <-> routeVerdict legacy network i = Irrelevant.
Proof.
  destruct i as [i|]; [|split; discriminate].
  unfold routeVerdict, relevant.
  destruct (strings_HasSuffix (Network i) network); cbn [negb]; split;
    try reflexivity; try discriminate.
  destruct (ParseCIDR (DestRange i)) as [[ip ipNet]|err]; [|discriminate].
  repeat match goal with |- context [if ?b then _ else _] => destruct b end;
    discriminate.
Qed.

(** Routes of other networks can be left out. *)
Lemma routes_filter routes network :
  forall acc w,
    returned (selectCIDRBlock_routes routes network acc w)
    = returned (selectCIDRBlock_routes (List.filter (relevant network) routes)
                  network acc w).
Proof.
  induction routes as [|i rest IH]; intros acc w; [reflexivity|].
  rewrite routes_step. cbn [List.filter].
  destruct (relevant network i) eqn:R.
  - rewrite routes_step.
    destruct (routeVerdict (legacyNetwork w) network i) eqn:V;
      try apply IH; try reflexivity.
  - apply (verdict_irrelevant (legacyNetwork w)) in R. rewrite R.
    rewrite routes_returned_stdout. apply IH.
Qed.


Lemma verdict_error legacy network i e :
  routeVerdict legacy network i = Fail e -> routeError e.
Proof.
  destruct i as [i|]; [|discriminate].
  unfold routeVerdict, routeError, ParseCIDR.
  destruct (negb _); [discriminate|].
  destruct (byteIndex (DestRange i) "/").
  - destruct (dtoi _) as [[ones used] good].
    match goal with |- context [if ?b then inr _ else _] => destruct b end.
    + intros [= <-]. eauto.
    + repeat match goal with |- context [if ?b then _ else _] => destruct b end;
        intros [= <-]; auto.
  - intros [= <-]. eauto.
Qed.

Lemma routes_error routes network :
  forall acc w v w1,
    selectCIDRBlock_routes routes network acc w = Ret (inr v) w1 ->
    exists e, v = ("", Some e) /\ routeError e.
Proof.
  induction routes as [|i rest IH]; intros acc w v w1 H; [discriminate|].
  rewrite routes_step in H.
  destruct (routeVerdict (legacyNetwork w) network i) eqn:V;
    [discriminate|exact (IH _ _ _ _ H)|exact (IH _ _ _ _ H)|exact (IH _ _ _ _ H)|].
  injection H as <- _. eauto using verdict_error.
Qed.

(** ** [selectCIDRBlock] as a whole *)

Lemma select_early fuel routes c network w v w1 :
  selectCIDRBlock_routes routes network [] w = Ret (inr v) w1 ->
  selectCIDRBlock fuel routes c network w = Ret v w1.
Proof. intros H. unfold selectCIDRBlock, bind. now rewrite H. Qed.

Lemma select_panic fuel routes c network w msg :
  selectCIDRBlock_routes routes network [] w = Panic msg ->
  selectCIDRBlock fuel routes c network w = Panic msg.
Proof. intros H. unfold selectCIDRBlock, bind. now rewrite H. Qed.

(** A call that returns has got through the first loop, one way or the
    other. *)
Lemma select_routes fuel routes c network w v w' :
  selectCIDRBlock fuel routes c network w = Ret v w' ->
  exists r out,
    selectCIDRBlock_routes routes network [] w = Ret r (with_stdout (stdout w ++ out) w).
Proof.
  intros H. destruct (routes_total routes network [] w) as [R|P]; [exact R|].
  rewrite (select_panic _ _ _ _ _ _ P) in H. discriminate.
Qed.

Lemma select_sample fuel routes c network w cidrBlocks w1 :
  selectCIDRBlock_routes routes network [] w = Ret (inl cidrBlocks) w1 ->
  selectCIDRBlock fuel routes c network w
  = sampleLoop fuel cidrBlocks c (shl_int 1 (sub_uint 32 c)) (seeded w1).
Proof. intros H. unfold selectCIDRBlock, bind. now rewrite H. Qed.

Lemma draw_bytes inc w :
  inc <> 0 ->
  is_byte (globalRand w 0%nat mod 254 + 1)
  /\ is_byte (globalRand w 1%nat mod (Z.quot 255 inc * inc + 1)).
Proof.
  intros Hz. destruct (quot_255 inc Hz) as [Hq _].
  pose proof (Z.mod_pos_bound (globalRand w 0%nat) 254 ltac:(lia)).
  pose proof (Z.mod_pos_bound (globalRand w 1%nat) (Z.quot 255 inc * inc + 1) ltac:(lia)).
  unfold is_byte. lia.
Qed.

(** A call that gets past the first loop with a prefix length of at most
    32 returns the canonical text of the first candidate. *)
Lemma select_success fuel routes c network w cidrBlocks w1 :
  selectCIDRBlock_routes routes network [] w = Ret (inl cidrBlocks) w1 ->
  0 <= c <= 32 ->
  exists t f,
    1 <= t <= 254 /\ is_byte f
    /\ selectCIDRBlock (S fuel) routes c network w
       = Ret (blockText t f c, None) (skip_rand 2 (seeded w1)).
Proof.
  intros H Hc. rewrite (select_sample _ _ _ _ _ _ _ H), sampleLoop_run.
  assert (shl_int 1 (sub_uint 32 c) <> 0) as Hz.
  { rewrite increment_small by assumption.
    assert (0 < 2 ^ (32 - c)) by (apply Z.pow_pos_nonneg; lia). lia. }
  rewrite drawCandidate_run by auto using shl_int_1_in_int.
  destruct (draw_bytes (shl_int 1 (sub_uint 32 c)) (seeded w1) Hz) as [Ht Hf].
  eexists _, _. split; [|split; [exact Hf|]].
  2:{ rewrite constructCIDR_ok by assumption. reflexivity. }
  pose proof (Z.mod_pos_bound (globalRand (seeded w1) 0%nat) 254 ltac:(lia)). lia.
Qed.


(** ** The sampling stage *)

Lemma increment_nonzero c : 0 <= c <= 32 -> shl_int 1 (sub_uint 32 c) <> 0.
Proof.
  intros H. rewrite increment_small by assumption.
  assert (0 < 2 ^ (32 - c)) by (apply Z.pow_pos_nonneg; lia). lia.
Qed.

(** C3 (amended): whenever the loop over the routes runs to its end and the
    increment [1 << (32 - cidrBlockSize)] is not zero (as it is for every
    [cidrBlockSize] up to 32), [selectCIDRBlock] returns in the first round
    of the sampling loop, whatever fuel above zero it is given: it returns
    what lines 75-83 make of the first candidate drawn, and the conflict
    set has no influence on that. *)
Theorem sampling_returns_first_candidate fuel routes c network w cidrBlocks w1 :
  selectCIDRBlock_routes routes network [] w = Ret (inl cidrBlocks) w1 ->
  shl_int 1 (sub_uint 32 c) <> 0 ->
  exists t f w2,
    drawCandidate (shl_int 1 (sub_uint 32 c)) (seeded w1) = Ret (t, f) w2
    /\ selectCIDRBlock (S fuel) routes c network w
       = Ret (constructCIDR (IPv4 10 240 t f) c) w2
    /\ forall others,
         sampleLoop 1 others c (shl_int 1 (sub_uint 32 c)) (seeded w1)
         = Ret (constructCIDR (IPv4 10 240 t f) c) w2.
Proof.
  intros H Hz.
  pose proof (drawCandidate_run _ (seeded w1) Hz (shl_int_1_in_int _)) as D.
  eexists _, _, _. split; [exact D|]. split.
  - rewrite (select_sample _ _ _ _ _ _ _ H), sampleLoop_run, D. reflexivity.
  - intros others. rewrite sampleLoop_run, D. reflexivity.
Qed.

(** Above 32 (and up to 2^64 - 32) the increment is zero and the first
    round stops on the division of line 68. *)
Lemma sampling_panics_above_32 fuel routes c network w cidrBlocks w1 :
  selectCIDRBlock_routes routes network [] w = Ret (inl cidrBlocks) w1 ->
  32 < c <= 2 ^ 64 - 32 ->
  selectCIDRBlock (S fuel) routes c network w
  = Panic "runtime error: integer divide by zero".
Proof.
  intros H Hc. rewrite (select_sample _ _ _ _ _ _ _ H), sampleLoop_run.
  now rewrite increment_zero, drawCandidate_zero.
Qed.

(** C8 (amended): on every draw the third octet lies in [1, 254] and the
    fourth octet is a number (a multiple of the increment or not) between 0
    and [(255 / increment) * increment]; for a [cidrBlockSize] of at most
    32 the increment is [2^(32 - cidrBlockSize)], the draw does deliver a
    candidate, and the bound is [floor(255/increment) * increment]. *)
Theorem draw_within_ranges c w :
  let fourthOctetIncrement := shl_int 1 (sub_uint 32 c) in
  (forall thirdOctet fourthOctet w',
     drawCandidate fourthOctetIncrement w = Ret (thirdOctet, fourthOctet) w' ->
     1 <= thirdOctet <= 254
     /\ 0 <= fourthOctet <= Z.quot 255 fourthOctetIncrement * fourthOctetIncrement)
  /\ (0 <= c <= 32 ->
      fourthOctetIncrement = 2 ^ (32 - c)
      /\ exists thirdOctet fourthOctet w',
           drawCandidate fourthOctetIncrement w = Ret (thirdOctet, fourthOctet) w'
           /\ 1 <= thirdOctet <= 254
           /\ 0 <= fourthOctet <= 255 / fourthOctetIncrement * fourthOctetIncrement).
Proof.
  intros inc.
  assert (inc <> 0 ->
          exists t f, drawCandidate inc w = Ret (t, f) (skip_rand 2 w)
                      /\ 1 <= t <= 254 /\ 0 <= f <= Z.quot 255 inc * inc) as D.
  { intros Hz. eexists _, _.
    split; [apply drawCandidate_run; [exact Hz|apply shl_int_1_in_int]|].
    destruct (quot_255 inc Hz) as [Hq _].
    pose proof (Z.mod_pos_bound (globalRand w 0%nat) 254 ltac:(lia)).
    pose proof (Z.mod_pos_bound (globalRand w 1%nat) (Z.quot 255 inc * inc + 1) ltac:(lia)).
    lia. }
  split.
  - intros t f w' H. destruct (Z.eq_dec inc 0) as [E|Hz].
    + rewrite E, drawCandidate_zero in H. discriminate.
    + destruct (D Hz) as (t' & f' & R & Ht & Hf). rewrite R in H.
      injection H as <- <- _. auto.
  - intros Hc. split; [now apply increment_small|].
    pose proof (increment_nonzero c Hc) as Hz. fold inc in Hz.
    assert (0 < inc) as Hp.
    { unfold inc. rewrite increment_small by assumption. apply Z.pow_pos_nonneg; lia. }
    destruct (D Hz) as (t & f & R & Ht & Hf). exists t, f, (skip_rand 2 w).
    rewrite <- (Z.quot_div_nonneg 255 inc) by lia. auto.
Qed.

(** C10: for a [cidrBlockSize] of at most 32 the text built from any
    candidate 10.240.t.f parses, the canonical text of the parsed network
    splits on the slash into exactly two parts, and no call of
    [selectCIDRBlock] returns either of the two errors of lines 77 and 81. *)
Theorem constructed_CIDR_always_parses c :
  0 <= c <= 32 ->
  (forall t f, is_byte t -> is_byte f ->
     exists ip newCidr,
       ParseCIDR (fmt_Sprintf_s_slash_d (IP_String (IPv4 10 240 t f)) c)
       = inl (ip, newCidr)
       /\ length (strings_Split (IPNet_String newCidr) "/") = 2%nat
       /\ constructCIDR (IPv4 10 240 t f) c = (IPNet_String newCidr, None))
  /\ (forall fuel routes network w v w',
        selectCIDRBlock fuel routes c network w = Ret v w' ->
        forall args,
          snd v <> Some (Errorf "error parsing constructed CIDR: %v" args)
          /\ snd v <> Some (Errorf "error parsing cidr block %q" args)).
Proof.
  intros Hc. split.
  - intros t f Ht Hf.
    pose proof (constructCIDR_ok t f c Ht Hf Hc) as K.
    unfold constructCIDR in K.
    destruct (ParseCIDR _) as [[ip newCidr]|err]; [|discriminate].
    exists ip, newCidr. split; [reflexivity|].
    destruct (negb (length (strings_Split (IPNet_String newCidr) "/") =? 2)%nat) eqn:E;
      [discriminate|].
    apply negb_false_iff, Nat.eqb_eq in E. split; [exact E|].
    rewrite constructCIDR_ok by assumption. congruence.
  - intros fuel routes network w v w' H args.
    destruct (select_routes _ _ _ _ _ _ _ H) as ([cidrBlocks|early] & out & R).
    + destruct fuel as [|fuel].
      * rewrite (select_sample _ _ _ _ _ _ _ R) in H. discriminate.
      * destruct (select_success fuel _ c _ _ _ _ R Hc) as (t & f & _ & _ & S).
        rewrite S in H. injection H as <- _. split; discriminate.
    + rewrite (select_early _ _ _ _ _ _ _ R) in H. injection H as <- _.
      destruct (routes_error _ _ _ _ _ _ R) as (e & -> & [[text ->]|[->| ->]]);
        split; discriminate.
Qed.


(** ** The returned block *)

Lemma land_idem a m : Z.land (Z.land a m) m = Z.land a m.
Proof. now rewrite <- Z.land_assoc, Z.land_diag. Qed.

(** The returned text parses to the block it was printed from. *)
Lemma ParseCIDR_blockText t f n :
  is_byte t -> is_byte f -> 0 <= n <= 32 ->
  exists ip,
    ParseCIDR (blockText t f n) = inl (ip, blockOf t f n)
    /\ IPNet_String (blockOf t f n) = blockText t f n.
Proof.
  intros Ht Hf Hn. unfold blockText, blockOf.
  destruct (CIDRMask_32 n Hn) as (m0 & m1 & m2 & m3 & Hm & _ & H0 & H1 & H2 & H3).
  rewrite Hm, and_bytes_4.
  eexists. split.
  - change (dotted ?a ?b ?c ?d +:+ "/" +:+ uitoa n)
      with (fmt_Sprintf_s_slash_d (dotted a b c d) n).
    rewrite ParseCIDR_dotted; try assumption;
      try (apply land_byte; auto; unfold is_byte; lia).
    rewrite Hm, and_bytes_4, !land_idem. reflexivity.
  - rewrite <- Hm. now apply IPNet_String_4.
Qed.

Lemma IPMask_Size_32 n : 0 <= n <= 32 -> IPMask_Size (CIDRMask n 32) = (n, 32).
Proof.
  intros Hn. destruct (CIDRMask_32 n Hn) as (m0 & m1 & m2 & m3 & Hm & Hl & _).
  rewrite Hm. unfold IPMask_Size. rewrite Hl.
  destruct (n =? -1) eqn:E; [apply Z.eqb_eq in E; lia|reflexivity].
Qed.

Lemma mask16_ok_all n : 16 <= n <= 32 -> mask16_ok n = true.
Proof.
  intros H.
  assert (forallb mask16_ok (Zrange 16 17) = true) as A by (vm_compute; reflexivity).
  rewrite forallb_forall in A. apply A, Zrange_In. lia.
Qed.

Lemma blockOf_16 t f n :
  16 <= n <= 32 ->
  exists x2 x3 m2 m3, blockOf t f n = mkIPNet [10; 240; x2; x3] [255; 255; m2; m3].
Proof.
  intros H. pose proof (mask16_ok_all n H) as A. unfold mask16_ok in A.
  unfold blockOf.
  destruct (CIDRMask n 32) as [|m0 [|m1 [|m2 [|m3 [|? ?]]]]]; try discriminate;
    repeat match type of A with
           | match ?m with _ => _ end = true => destruct m; try discriminate
           end.
  rewrite and_bytes_4. eauto.
Qed.

(** Every address of a block 10.240.x.y/n with n of 16 or more lies in the
    reserved range. *)
Lemma reserved_contains_block x2 x3 m2 m3 x :
  IPNet_Contains (mkIPNet [10; 240; x2; x3] [255; 255; m2; m3]) x = true ->
  IPNet_Contains reservedRange x = true.
Proof.
  unfold IPNet_Contains, reservedRange.
  change (networkNumberAndMask (mkIPNet [10; 240; x2; x3] [255; 255; m2; m3]))
    with ([10; 240; x2; x3], [255; 255; m2; m3]).
  change (networkNumberAndMask (mkIPNet [10; 240; 0; 0] [255; 255; 0; 0]))
    with ([10; 240; 0; 0], [255; 255; 0; 0]).
  cbv beta iota.
  generalize (if negb (is_nil (To4 x)) then To4 x else x). intros y.
  destruct y as [|y0 [|y1 [|y2 [|y3 [|y4 y]]]]]; try discriminate.
  cbn [length Nat.eqb negb seq forallb at_ nth].
  rewrite !andb_true_r, !Z.land_0_r.
  intros H. repeat (apply andb_true_iff in H as [? H]).
  repeat (apply andb_true_iff; split); auto.
Qed.

Lemma reserved_contains_base x2 x3 :
  IPNet_Contains reservedRange [10; 240; x2; x3] = true.
Proof.
  unfold IPNet_Contains, reservedRange.
  change (networkNumberAndMask (mkIPNet [10; 240; 0; 0] [255; 255; 0; 0]))
    with ([10; 240; 0; 0], [255; 255; 0; 0]).
  cbv beta iota. change (To4 [10; 240; x2; x3]) with [10; 240; x2; x3].
  cbn [is_nil negb length Nat.eqb seq forallb at_ nth].
  now rewrite !Z.land_0_r.
Qed.

(** C2: a call with a [cidrBlockSize] between 16 and 32 that returns
    without an error returns the canonical text of a network whose prefix
    length is [cidrBlockSize] and whose base address and every other address
    lie in 10.240.0.0/16. *)
Theorem result_within_reserved_range fuel routes c network w s w' :
  16 <= c <= 32 ->
  selectCIDRBlock fuel routes c network w = Ret (s, None) w' ->
  exists ip block,
    ParseCIDR s = inl (ip, block)
    /\ IPNet_String block = s
    /\ IPMask_Size (IPNet_Mask block) = (c, 32)
    /\ IPNet_Contains reservedRange (IPNet_IP block) = true
    /\ forall x, IPNet_Contains block x = true -> IPNet_Contains reservedRange x = true.
Proof.
  intros Hc H. assert (0 <= c <= 32) as Hc' by lia.
  destruct (select_routes _ _ _ _ _ _ _ H) as ([cidrBlocks|early] & out & R).
  - destruct fuel as [|fuel].
    { rewrite (select_sample _ _ _ _ _ _ _ R) in H. discriminate. }
    destruct (select_success fuel _ c _ _ _ _ R Hc') as (t & f & Ht & Hf & S).
    rewrite S in H. injection H as <- _.
    assert (is_byte t) as Ht' by (unfold is_byte; lia).
    destruct (ParseCIDR_blockText t f c Ht' Hf Hc') as (ip & P & T).
    exists ip, (blockOf t f c). split; [exact P|]. split; [exact T|].
    split; [apply IPMask_Size_32; exact Hc'|].
    destruct (blockOf_16 t f c Hc) as (x2 & x3 & m2 & m3 & ->).
    split; [apply reserved_contains_base|].
    intros x. apply reserved_contains_block.
  - rewrite (select_early _ _ _ _ _ _ _ R) in H. injection H as -> _.
    destruct (routes_error _ _ _ _ _ _ R) as (e & E & _). discriminate.
Qed.


(** ** The conflict set is not consulted *)

Lemma halves_cover t f :
  1 <= t <= 254 -> is_byte f ->
  overlaps_some [lowerHalf; upperHalf] (blockOf t f 29) = true.
Proof.
  intros Ht Hf.
  assert (forallb (fun t => forallb (fun f =>
            overlaps_some [lowerHalf; upperHalf] (blockOf t f 29))
            (Zrange 0 256)) (Zrange 1 254) = true) as A
    by (vm_compute; reflexivity).
  rewrite forallb_forall in A.
  specialize (A t (Zrange_In 1 254 t ltac:(lia))).
  rewrite forallb_forall in A. apply A, Zrange_In. unfold is_byte in Hf. lia.
Qed.

(** C1 (the code at a failing input): with the two routes 10.240.0.0/17
    and 10.240.128.0/17 of the target network both kept in the conflict
    set, every call for a /29 succeeds, whatever the random source
    delivers, and returns a block that overlaps a block of the conflict
    set. *)
Theorem halves_always_conflict fuel out now rnd :
  exists w1 s w2 ip block,
    selectCIDRBlock_routes halves "default" [] (boot out now rnd)
    = Ret (inl [lowerHalf; upperHalf]) w1
    /\ selectCIDRBlock (S fuel) halves 29 "default" (boot out now rnd)
       = Ret (s, None) w2
    /\ ParseCIDR s = inl (ip, block)
    /\ exists conflict,
         In conflict [lowerHalf; upperHalf] /\ overlaps block conflict = true.
Proof.
  assert (selectCIDRBlock_routes halves "default" [] (boot out now rnd)
          = Ret (inl [lowerHalf; upperHalf]) (boot out now rnd)) as R
    by (vm_compute; reflexivity).
  destruct (select_success fuel _ 29 _ _ _ _ R ltac:(lia)) as (t & f & Ht & Hf & S).
  destruct (ParseCIDR_blockText t f 29 ltac:(unfold is_byte; lia) Hf ltac:(lia))
    as (ip & P & _).
  exists (boot out now rnd), (blockText t f 29), (skip_rand 2 (seeded (boot out now rnd))),
    ip, (blockOf t f 29).
  split; [exact R|]. split; [exact S|]. split; [exact P|].
  pose proof (halves_cover t f Ht Hf) as C. unfold overlaps_some in C.
  apply existsb_exists in C. destruct C as (conflict & Hin & Ho). eauto.
Qed.


(** ** Routes of other networks *)

Lemma verdict_scrub legacy network d i :
  routeVerdict legacy network (scrub network d i) = routeVerdict legacy network i.
Proof.
  destruct i as [i|]; [|reflexivity].
  unfold scrub. destruct (relevant network (Some i)) eqn:R; [reflexivity|].
  transitivity Irrelevant; [|symmetry]; now apply verdict_irrelevant.
Qed.

Lemma routes_scrub network d routes :
  forall acc w,
    selectCIDRBlock_routes (map (scrub network d) routes) network acc w
    = selectCIDRBlock_routes routes network acc w.
Proof.
  induction routes as [|i rest IH]; intros acc w; [reflexivity|].
  cbn [map]. rewrite !routes_step, verdict_scrub.
  destruct (routeVerdict (legacyNetwork w) network i); auto.
Qed.

Lemma seeded_with_stdout o w : seeded (with_stdout o w) = with_stdout o (seeded w).
Proof. reflexivity. Qed.

(** C4: the routes whose network does not end with the target suffix have
    no influence. Leaving them out changes neither what [selectCIDRBlock]
    returns nor the world it leaves, the lines printed apart; the first loop
    returns the same conflict set or the same error; and whatever stands in
    their destination range, malformed or not, the call runs alike. *)
Theorem other_networks_have_no_influence fuel routes c network w :
  erase_stdout (selectCIDRBlock fuel routes c network w)
  = erase_stdout (selectCIDRBlock fuel (List.filter (relevant network) routes) c network w)
  /\ returned (selectCIDRBlock_routes routes network [] w)
     = returned (selectCIDRBlock_routes (List.filter (relevant network) routes) network [] w)
  /\ forall d,
       selectCIDRBlock fuel (map (scrub network d) routes) c network w
       = selectCIDRBlock fuel routes c network w.
Proof.
  split; [|split].
  - pose proof (routes_filter routes network [] w) as F.
    destruct (routes_total routes network [] w) as [(r & out & R)|R];
      destruct (routes_total (List.filter (relevant network) routes) network [] w)
        as [(r' & out' & R')|R']; rewrite R, R' in F; try discriminate.
    + injection F as <-.
      destruct r as [cidrBlocks|v].
      * rewrite (select_sample _ _ _ _ _ _ _ R), (select_sample _ _ _ _ _ _ _ R').
        rewrite !seeded_with_stdout, !sampleLoop_stdout. reflexivity.
      * rewrite (select_early _ _ _ _ _ _ _ R), (select_early _ _ _ _ _ _ _ R').
        reflexivity.
    + now rewrite (select_panic _ _ _ _ _ _ R), (select_panic _ _ _ _ _ _ R').
  - apply routes_filter.
  - intros d. unfold selectCIDRBlock, bind. now rewrite routes_scrub.
Qed.

(** ** Routes that make the call fail *)

Lemma select_fail fuel routes c network w i e :
  In i routes ->
  routeVerdict (legacyNetwork w) network i = Fail e ->
  (exists e' w', selectCIDRBlock fuel routes c network w = Ret ("", Some e') w')
  \/ selectCIDRBlock fuel routes c network w = Panic nilDereference.
Proof.
  intros Hin V.
  destruct (routes_fail routes network i e Hin [] w V) as [(e' & w' & R)|P].
  - left. exists e', w'. now apply select_early.
  - right. now apply select_panic.
Qed.

Lemma select_fail_no_nil fuel routes c network w i e :
  In i routes -> ~ In None routes ->
  routeVerdict (legacyNetwork w) network i = Fail e ->
  exists e' w', selectCIDRBlock fuel routes c network w = Ret ("", Some e') w'.
Proof.
  intros Hin Hnil V.
  destruct (routes_fail_no_nil routes network i e Hin Hnil [] w V) as (e' & w' & R).
  exists e', w'. now apply select_early.
Qed.

Lemma select_fail_at fuel pre i post c network w cidrBlocks w1 e :
  selectCIDRBlock_routes pre network [] w = Ret (inl cidrBlocks) w1 ->
  routeVerdict (legacyNetwork w) network i = Fail e ->
  selectCIDRBlock fuel (pre ++ i :: post) c network w = Ret ("", Some e) w1.
Proof.
  intros R V. apply select_early.
  rewrite (routes_app _ _ _ _ _ _ _ R), routes_step.
  destruct (routes_legacyNetwork _ _ _ _ _ _ R) as (-> & _). now rewrite V.
Qed.

(** C7 (amended): a route of the target network whose destination range
    does not parse keeps the call from returning a block, wherever the
    route stands in the list: the call returns an error and the empty
    string, unless it meets a [nil] element first and panics at line 40. In
    a list without [nil] elements it returns an error and the empty string,
    and when the loop gets as far as that route the error is the one of
    the parser. *)
Theorem malformed_route_aborts fuel routes c network w i err :
  In (Some i) routes ->
  strings_HasSuffix (Network i) network = true ->
  ParseCIDR (DestRange i) = inr err ->
  ((exists e w', selectCIDRBlock fuel routes c network w = Ret ("", Some e) w')
   \/ selectCIDRBlock fuel routes c network w = Panic nilDereference)
  /\ (~ In None routes ->
      exists e w', selectCIDRBlock fuel routes c network w = Ret ("", Some e) w')
  /\ forall pre post cidrBlocks w1,
       routes = pre ++ Some i :: post ->
       selectCIDRBlock_routes pre network [] w = Ret (inl cidrBlocks) w1 ->
       selectCIDRBlock fuel routes c network w = Ret ("", Some err) w1.
Proof.
  intros Hin Hs Hp.
  assert (routeVerdict (legacyNetwork w) network (Some i) = Fail err) as V.
  { unfold routeVerdict. now rewrite Hs, Hp. }
  split; [now apply (select_fail fuel routes c network w (Some i) err)|].
  split; [intros Hnil; now apply (select_fail_no_nil fuel routes c network w (Some i) err)|].
  intros pre post cidrBlocks w1 -> R. exact (select_fail_at _ _ _ _ _ _ _ _ _ _ R V).
Qed.

(** C5 (amended): a route of the target network whose destination range
    parses to a network with base address 10.240.0.0 and a prefix length
    between 8 and 16 keeps the call from returning a block: the call
    returns an error and the empty string, unless it meets a [nil] element
    first and panics at line 40. In a list without [nil] elements it
    returns an error and the empty string, and the error is the one about
    legacy networks when the loop gets as far as that route, that is when
    nothing before it stops the loop. *)
Theorem legacy_route_fails fuel routes c network w i ip ipNet :
  legacyNetwork w = legacyNetwork_init ->
  In (Some i) routes ->
  strings_HasSuffix (Network i) network = true ->
  ParseCIDR (DestRange i) = inl (ip, ipNet) ->
  IP_Equal (IPv4 10 240 0 0) (IPNet_IP ipNet) = true ->
  8 <= fst (IPMask_Size (IPNet_Mask ipNet)) <= 16 ->
  ((exists e w', selectCIDRBlock fuel routes c network w = Ret ("", Some e) w')
   \/ selectCIDRBlock fuel routes c network w = Panic nilDereference)
  /\ (~ In None routes ->
      exists e w', selectCIDRBlock fuel routes c network w = Ret ("", Some e) w')
  /\ forall pre post cidrBlocks w1,
       routes = pre ++ Some i :: post ->
       selectCIDRBlock_routes pre network [] w = Ret (inl cidrBlocks) w1 ->
       selectCIDRBlock fuel routes c network w = Ret ("", Some legacyError) w1.
Proof.
  intros Hl Hin Hs Hp He Hm.
  assert (routeVerdict (legacyNetwork w) network (Some i) = Fail legacyError) as V.
  { unfold routeVerdict. rewrite Hs, Hp, Hl. cbn [negb fst].
    destruct (_ <? 8) eqn:E1; [apply Z.ltb_lt in E1; lia|].
    change legacyNetwork_init with (IPv4 10 240 0 0). rewrite He.
    destruct (_ <=? 16) eqn:E2; [reflexivity|apply Z.leb_gt in E2; lia]. }
  split; [now apply (select_fail fuel routes c network w (Some i) legacyError)|].
  split; [intros Hnil;
          now apply (select_fail_no_nil fuel routes c network w (Some i) legacyError)|].
  intros pre post cidrBlocks w1 -> R. exact (select_fail_at _ _ _ _ _ _ _ _ _ _ R V).
Qed.

(** C6 (amended): a route of the target network whose destination range
    parses to a network with a prefix length between 8 and 16 that contains
    10.240.1.1 and 10.240.250.250 keeps the call from returning a block: the
    call returns an error and the empty string, unless it meets a [nil]
    element first and panics at line 40. In a list without [nil] elements
    it returns an error and the empty string, and the error is the one
    about the covered range when the base address is not 10.240.0.0 and the
    loop gets as far as that route. *)
Theorem covering_route_fails fuel routes c network w i ip ipNet :
  legacyNetwork w = legacyNetwork_init ->
  In (Some i) routes ->
  strings_HasSuffix (Network i) network = true ->
  ParseCIDR (DestRange i) = inl (ip, ipNet) ->
  8 <= fst (IPMask_Size (IPNet_Mask ipNet)) <= 16 ->
  IPNet_Contains ipNet (IPv4 10 240 1 1) = true ->
  IPNet_Contains ipNet (IPv4 10 240 250 250) = true ->
  ((exists e w', selectCIDRBlock fuel routes c network w = Ret ("", Some e) w')
   \/ selectCIDRBlock fuel routes c network w = Panic nilDereference)
  /\ (~ In None routes ->
      exists e w', selectCIDRBlock fuel routes c network w = Ret ("", Some e) w')
  /\ (IP_Equal (IPv4 10 240 0 0) (IPNet_IP ipNet) = false ->
      forall pre post cidrBlocks w1,
        routes = pre ++ Some i :: post ->
        selectCIDRBlock_routes pre network [] w = Ret (inl cidrBlocks) w1 ->
        selectCIDRBlock fuel routes c network w = Ret ("", Some exhaustedError) w1).
Proof.
  intros Hl Hin Hs Hp Hm H1 H2.
  assert (exists e, routeVerdict (legacyNetwork w) network (Some i) = Fail e
                    /\ (IP_Equal (IPv4 10 240 0 0) (IPNet_IP ipNet) = false ->
                        e = exhaustedError)) as (e & V & Ve).
  { unfold routeVerdict. rewrite Hs, Hp, Hl, H1, H2. cbn [negb fst].
    destruct (_ <? 8) eqn:E1; [apply Z.ltb_lt in E1; lia|].
    change legacyNetwork_init with (IPv4 10 240 0 0).
    destruct (_ <=? 16) eqn:E2; [|apply Z.leb_gt in E2; lia].
    destruct (IP_Equal _ _); cbn [andb]; eexists; (split; [reflexivity|]);
      intros; (discriminate || reflexivity). }
  split; [now apply (select_fail fuel routes c network w (Some i) e)|].
  split; [intros Hnil; now apply (select_fail_no_nil fuel routes c network w (Some i) e)|].
  intros Hne pre post cidrBlocks w1 -> R. rewrite <- (Ve Hne).
  exact (select_fail_at _ _ _ _ _ _ _ _ _ _ R V).
Qed.

(** ** [cidrBlockSize] and the table *)

Lemma drawCandidate_world inc w a w' :
  drawCandidate inc w = Ret a w' ->
  legacyNetwork w' = legacyNetwork w
  /\ tpuDeviceNetworkSizes w' = tpuDeviceNetworkSizes w.
Proof.
  unfold drawCandidate, bind, rand_Intn, div_int, ret, panic.
  change (254 <=? 0) with false. cbv iota.
  destruct (inc =? 0); [discriminate|]. cbv beta iota.
  match goal with |- context [?n <=? 0] => destruct (n <=? 0) end; [discriminate|].
  intros [= _ <-]. split; reflexivity.
Qed.

Lemma select_world fuel routes c network w a w' :
  selectCIDRBlock fuel routes c network w = Ret a w' ->
  legacyNetwork w' = legacyNetwork w
  /\ tpuDeviceNetworkSizes w' = tpuDeviceNetworkSizes w.
Proof.
  intros H.
  destruct (select_routes _ _ _ _ _ _ _ H) as ([cidrBlocks|early] & out & R).
  - rewrite (select_sample _ _ _ _ _ _ _ R) in H.
    destruct fuel as [|fuel]; [discriminate|].
    rewrite sampleLoop_run in H.
    destruct (drawCandidate _ _) as [[t f] w2| |] eqn:D; try discriminate.
    injection H as _ <-. apply drawCandidate_world in D. exact D.
  - rewrite (select_early _ _ _ _ _ _ _ R) in H. injection H as _ <-.
    split; reflexivity.
Qed.

(** C9: [cidrBlockSize] returns the size stored in the table exactly when
    the hardware type is a key of the table and the error about an unknown
    device size exactly when it is not; after package initialisation
    "v3-256" yields 26 and "v9-999" the error; and neither [cidrBlockSize]
    nor [selectCIDRBlock] changes the table. *)
Theorem cidrBlockSize_reads_table hardwareType w :
  (forall bits,
     tpuDeviceNetworkSizes w !! hardwareType = Some bits
     <-> cidrBlockSize hardwareType w = Ret (bits, None) w)
  /\ (tpuDeviceNetworkSizes w !! hardwareType = None
      <-> cidrBlockSize hardwareType w
          = Ret (0, Some (Errorf "unknown TPU device size %q" [arg_string hardwareType])) w)
  /\ (forall out now rnd,
        cidrBlockSize "v3-256" (boot out now rnd) = Ret (26, None) (boot out now rnd)
        /\ cidrBlockSize "v9-999" (boot out now rnd)
           = Ret (0, Some (Errorf "unknown TPU device size %q" [arg_string "v9-999"]))
               (boot out now rnd))
  /\ (forall r w', cidrBlockSize hardwareType w = Ret r w' -> w' = w)
  /\ (forall fuel routes c network r w',
        selectCIDRBlock fuel routes c network w = Ret r w' ->
        tpuDeviceNetworkSizes w' = tpuDeviceNetworkSizes w).
Proof.
  unfold cidrBlockSize, bind, read, ret.
  split; [|split; [|split; [|split]]].
  - intros bits. destruct (tpuDeviceNetworkSizes w !! hardwareType);
      split; intros H; congruence.
  - destruct (tpuDeviceNetworkSizes w !! hardwareType); split; intros H; congruence.
  - intros out now rnd. split; reflexivity.
  - intros r w'. destruct (tpuDeviceNetworkSizes w !! hardwareType); congruence.
  - intros fuel routes c network r w' H. now apply select_world in H.
Qed.


(** ** The first loop, route by route *)

Lemma verdict_relevant legacy network i :
  routeVerdict legacy network i <> Irrelevant -> relevant network i = true.
Proof.
  intros H. destruct (relevant network i) eqn:R; [reflexivity|].
  now apply (verdict_irrelevant legacy) in R.
Qed.

Lemma continues_cons_relevant network i rest :
  relevant network i = true -> continues network (i :: rest) = continues network rest.
Proof. intros R. unfold continues. cbn [List.filter]. now rewrite R. Qed.

Lemma continues_cons_irrelevant network i rest :
  relevant network i = false ->
  continues network (i :: rest) = "continue" :: continues network rest.
Proof. intros R. unfold continues. cbn [List.filter]. now rewrite R. Qed.

Lemma routes_complete routes network :
  forall acc w,
    forallb (fun i => negb (failing (legacyNetwork w) network i)) routes = true ->
    selectCIDRBlock_routes routes network acc w
    = Ret (inl (acc ++ keptBlocks (legacyNetwork w) network routes))
        (with_stdout (stdout w ++ continues network routes) w).
Proof.
  induction routes as [|i rest IH]; intros acc w H.
  - cbn. unfold ret. now rewrite !app_nil_r, with_stdout_same.
  - cbn [forallb] in H. apply andb_true_iff in H as [Hi Hrest].
    rewrite routes_step. unfold failing in Hi. unfold keptBlocks. cbn [flat_map].
    fold (keptBlocks (legacyNetwork w) network rest).
    destruct (routeVerdict (legacyNetwork w) network i) eqn:V; try discriminate.
    + apply verdict_irrelevant in V. rewrite (continues_cons_irrelevant _ _ _ V).
      rewrite IH by exact Hrest. cbn [legacyNetwork with_stdout stdout app].
      now rewrite <- app_assoc.
    + rewrite continues_cons_relevant
        by (apply (verdict_relevant (legacyNetwork w)); congruence).
      now rewrite IH.
    + rewrite continues_cons_relevant
        by (apply (verdict_relevant (legacyNetwork w)); congruence).
      rewrite IH by exact Hrest. now rewrite <- app_assoc.
Qed.

Lemma continues_app network pre post :
  continues network (pre ++ post) = continues network pre ++ continues network post.
Proof. unfold continues. now rewrite List.filter_app, map_app. Qed.

(** X1: when no element of the list stops the loop (no [nil] element and
    no route that makes it return an error), the loop runs to its end
    without a panic; the conflict set holds the networks of the routes of
    the target network with a prefix length of 8 or more, in the order of
    the routes, and one line is printed for each route of another
    network. *)
Theorem conflict_set_of_kept_routes routes network w :
  forallb (fun i => negb (failing (legacyNetwork w) network i)) routes = true ->
  selectCIDRBlock_routes routes network [] w
  = Ret (inl (keptBlocks (legacyNetwork w) network routes))
      (with_stdout (stdout w ++ continues network routes) w).
Proof. intros H. now rewrite routes_complete. Qed.

(** X2: the first route that makes the loop fail decides the call, when
    no [nil] element stands before it: its error is returned with the empty
    string, only the lines for the routes before it are printed, and the
    clock and the random source are left alone. *)
Theorem first_failing_route_decides fuel pre i post c network w e :
  forallb (fun j => negb (failing (legacyNetwork w) network j)) pre = true ->
  routeVerdict (legacyNetwork w) network i = Fail e ->
  selectCIDRBlock fuel (pre ++ i :: post) c network w
  = Ret ("", Some e) (with_stdout (stdout w ++ continues network pre) w).
Proof.
  intros Hpre V.
  apply (select_fail_at fuel pre i post c network w _ _ e
           (routes_complete pre network [] w Hpre) V).
Qed.

Lemma routes_skip_wide pre i post network :
  forall acc w,
    routeVerdict (legacyNetwork w) network i = TooWide ->
    selectCIDRBlock_routes (pre ++ i :: post) network acc w
    = selectCIDRBlock_routes (pre ++ post) network acc w.
Proof.
  induction pre as [|j pre IH]; intros acc w V.
  - cbn [app]. now rewrite routes_step, V.
  - rewrite <- !app_comm_cons, !routes_step.
    destruct (routeVerdict (legacyNetwork w) network j); auto.
Qed.

(** X3: a route of the target network whose range parses to a prefix
    length below 8 is passed over in silence: with or without it the call
    runs alike, whatever else is in the list. *)
Theorem wide_route_is_ignored fuel pre i post c network w ip ipNet :
  strings_HasSuffix (Network i) network = true ->
  ParseCIDR (DestRange i) = inl (ip, ipNet) ->
  fst (IPMask_Size (IPNet_Mask ipNet)) < 8 ->
  selectCIDRBlock fuel (pre ++ Some i :: post) c network w
  = selectCIDRBlock fuel (pre ++ post) c network w.
Proof.
  intros Hs Hp Hm.
  assert (forall legacy, routeVerdict legacy network (Some i) = TooWide) as V.
  { intros legacy. unfold routeVerdict. rewrite Hs, Hp. cbn [negb].
    destruct (_ <? 8) eqn:E; [reflexivity|apply Z.ltb_ge in E; lia]. }
  unfold selectCIDRBlock, bind. now rewrite routes_skip_wide.
Qed.


(** ** The returned block, by prefix length *)

Lemma select_block fuel routes c network w cidrBlocks w1 :
  selectCIDRBlock_routes routes network [] w = Ret (inl cidrBlocks) w1 ->
  0 <= c <= 32 ->
  let t := rngSource (clock w) 0%nat mod 254 + 1 in
  let f := rngSource (clock w) 1%nat mod (255 / 2 ^ (32 - c) * 2 ^ (32 - c) + 1) in
  1 <= t <= 254 /\ 0 <= f <= 255 / 2 ^ (32 - c) * 2 ^ (32 - c) /\ is_byte f
  /\ selectCIDRBlock (S fuel) routes c network w
     = Ret (blockText t f c, None) (skip_rand 2 (seeded w1)).
Proof.
  intros H Hc t f.
  destruct (routes_legacyNetwork _ _ _ _ _ _ H) as (_ & _ & Hclock & _).
  pose proof (increment_nonzero c Hc) as Hz.
  pose proof (increment_small c Hc) as Hi.
  assert (0 < 2 ^ (32 - c)) as Hp by (apply Z.pow_pos_nonneg; lia).
  assert (Z.quot 255 (2 ^ (32 - c)) = 255 / 2 ^ (32 - c)) as Hq
    by (apply Z.quot_div_nonneg; lia).
  destruct (quot_255 _ Hz) as [Hb _]. rewrite Hi, Hq in Hb.
  pose proof (Z.mod_pos_bound (rngSource (clock w) 0%nat) 254 ltac:(lia)) as Ht.
  pose proof (Z.mod_pos_bound (rngSource (clock w) 1%nat)
                (255 / 2 ^ (32 - c) * 2 ^ (32 - c) + 1) ltac:(lia)) as Hf.
  fold f in Hf. fold t in Ht.
  assert (is_byte f) as Hf' by (unfold is_byte; lia).
  split; [lia|]. split; [lia|]. split; [exact Hf'|].
  rewrite (select_sample _ _ _ _ _ _ _ H), sampleLoop_run.
  rewrite drawCandidate_run by auto using shl_int_1_in_int.
  rewrite Hi, Hq. cbn [seeded globalRand]. rewrite Hclock. fold t f.
  rewrite constructCIDR_ok by (auto; unfold is_byte; lia). reflexivity.
Qed.

(** X4: with a prefix length of at most 32 a call succeeds as soon as no
    element of the list stops the first loop. One line is printed for each
    route of another network. The block is a candidate 10.240.t.f, with t
    from 1 to 254 and f from 0 to [floor(255/inc) * inc], cut down to the
    prefix length; the text returned is the canonical text of that network
    and parses back to it. *)
Theorem call_succeeds_without_failing_route fuel routes c network w :
  forallb (fun i => negb (failing (legacyNetwork w) network i)) routes = true ->
  0 <= c <= 32 ->
  exists s ip t f w',
    selectCIDRBlock (S fuel) routes c network w = Ret (s, None) w'
    /\ stdout w' = stdout w ++ continues network routes
    /\ 1 <= t <= 254
    /\ 0 <= f <= 255 / 2 ^ (32 - c) * 2 ^ (32 - c)
    /\ ParseCIDR s = inl (ip, blockOf t f c)
    /\ IPNet_String (blockOf t f c) = s.
Proof.
  intros H Hc.
  destruct (select_block fuel routes c network w _ _
              (routes_complete routes network [] w H) Hc)
    as (Ht & Hb & Hf & S).
  match type of Ht with
  | 1 <= ?t <= 254 =>
      assert (is_byte t) as Ht' by (unfold is_byte; lia);
      destruct (ParseCIDR_blockText t _ c Ht' Hf Hc) as (ip & P & T)
  end.
  eexists _, ip, _, _, _. split; [exact S|]. split; [reflexivity|].
  split; [exact Ht|]. split; [exact Hb|]. split; [exact P|exact T].
Qed.

Lemma mask_ge24_ok_all n : 24 <= n <= 32 -> mask_ge24_ok n = true.
Proof.
  intros H.
  assert (forallb mask_ge24_ok (Zrange 24 9) = true) as A by (vm_compute; reflexivity).
  rewrite forallb_forall in A. apply A, Zrange_In. lia.
Qed.

Lemma land_255 t : is_byte t -> Z.land t 255 = t.
Proof.
  intros H. change 255 with (Z.ones 8). rewrite Z.land_ones by lia.
  apply Z.mod_small. exact H.
Qed.

Lemma blockText_24 t f n :
  is_byte t -> is_byte f -> 24 <= n <= 32 ->
  blockText t f n
  = dotted 10 240 t (f - f mod 2 ^ (32 - n)) +:+ "/" +:+ uitoa n.
Proof.
  intros Ht Hf H. pose proof (mask_ge24_ok_all n H) as A. unfold mask_ge24_ok in A.
  unfold blockText, blockOf.
  destruct (CIDRMask n 32) as [|m0 [|m1 [|m2 [|m3 [|? ?]]]]]; try discriminate;
    repeat match type of A with
           | match ?m with _ => _ end = true => destruct m; try discriminate
           end.
  rewrite forallb_forall in A.
  specialize (A f (Zrange_In 0 256 f ltac:(unfold is_byte in Hf; lia))).
  apply Z.eqb_eq in A. rewrite and_bytes_4, A.
  change (Z.land 10 255) with 10. change (Z.land 240 255) with 240.
  now rewrite land_255.
Qed.


(** X5: with a prefix length between 24 and 32 a returned block is
    10.240.t.g/c with a third octet from 1 to 254 and a fourth octet that
    is a multiple of the block size [2^(32 - c)]. *)
Theorem small_block_is_aligned fuel routes c network w s w' :
  24 <= c <= 32 ->
  selectCIDRBlock fuel routes c network w = Ret (s, None) w' ->
  exists t g,
    1 <= t <= 254 /\ 0 <= g <= 255 /\ g mod 2 ^ (32 - c) = 0
    /\ s = dotted 10 240 t g +:+ "/" +:+ uitoa c.
Proof.
  intros Hc H. assert (0 <= c <= 32) as Hc' by lia.
  destruct (select_routes _ _ _ _ _ _ _ H) as ([cidrBlocks|early] & out & R).
  - destruct fuel as [|fuel].
    { rewrite (select_sample _ _ _ _ _ _ _ R) in H. discriminate. }
    destruct (select_block fuel _ c _ _ _ _ R Hc') as (Ht & _ & Hf & S).
    rewrite S in H. injection H as <- _.
    set (t := rngSource (clock w) 0%nat mod 254 + 1) in *.
    set (f := rngSource (clock w) 1%nat mod _) in *.
    assert (0 < 2 ^ (32 - c)) as Hp by (apply Z.pow_pos_nonneg; lia).
    pose proof (Z.mod_pos_bound f (2 ^ (32 - c)) Hp) as Hm.
    pose proof (Z.mod_le f (2 ^ (32 - c)) ltac:(unfold is_byte in Hf; lia) Hp) as Hle.
    exists t, (f - f mod 2 ^ (32 - c)). split; [exact Ht|].
    split; [unfold is_byte in Hf; lia|]. split.
    + rewrite Zminus_mod_idemp_r, Z.sub_diag. apply Z.mod_0_l. lia.
    + apply blockText_24; auto. unfold is_byte. lia.
  - rewrite (select_early _ _ _ _ _ _ _ R) in H. injection H as -> _.
    destruct (routes_error _ _ _ _ _ _ R) as (e & E & _). discriminate.
Qed.

Lemma mask_le16_ok_all n : 0 <= n <= 16 -> mask_le16_ok n = true.
Proof.
  intros H.
  assert (forallb mask_le16_ok (Zrange 0 17) = true) as A by (vm_compute; reflexivity).
  rewrite forallb_forall in A. apply A, Zrange_In. lia.
Qed.

Lemma CIDRMask_le16 n :
  0 <= n <= 16 ->
  exists m0 m1,
    Z.land 255 m0 = m0 /\ Z.land 255 m1 = m1 /\ CIDRMask n 32 = [m0; m1; 0; 0].
Proof.
  intros H. pose proof (mask_le16_ok_all n H) as A. unfold mask_le16_ok in A.
  destruct (CIDRMask n 32) as [|m0 [|m1 [|m2 [|m3 [|? ?]]]]]; try discriminate;
    repeat match type of A with
           | match ?m with _ => _ end = true => destruct m; try discriminate
           end.
  apply andb_true_iff in A as [A0 A1]. apply Z.eqb_eq in A0, A1. eauto.
Qed.

Lemma blockOf_le16 t f n :
  0 <= n <= 16 ->
  exists m0 m1,
    Z.land 255 m0 = m0 /\ Z.land 255 m1 = m1
    /\ blockOf t f n = mkIPNet [Z.land 10 m0; Z.land 240 m1; 0; 0] [m0; m1; 0; 0]
    /\ blockOf 0 0 n = mkIPNet [Z.land 10 m0; Z.land 240 m1; 0; 0] [m0; m1; 0; 0].
Proof.
  intros H. destruct (CIDRMask_le16 n H) as (m0 & m1 & H0 & H1 & Hm).
  exists m0, m1. unfold blockOf. rewrite Hm, !and_bytes_4, !Z.land_0_r. auto.
Qed.

Lemma land_through_255 a b m :
  Z.land 255 m = m -> Z.land a 255 = Z.land b 255 -> Z.land a m = Z.land b m.
Proof.
  intros Hm H. rewrite <- Hm, !Z.land_assoc. now rewrite H.
Qed.

Lemma wide_block_contains m0 m1 x :
  Z.land 255 m0 = m0 -> Z.land 255 m1 = m1 ->
  IPNet_Contains reservedRange x = true ->
  IPNet_Contains (mkIPNet [Z.land 10 m0; Z.land 240 m1; 0; 0] [m0; m1; 0; 0]) x = true.
Proof.
  intros H0 H1. unfold IPNet_Contains, reservedRange.
  change (networkNumberAndMask (mkIPNet [Z.land 10 m0; Z.land 240 m1; 0; 0] [m0; m1; 0; 0]))
    with ([Z.land 10 m0; Z.land 240 m1; 0; 0], [m0; m1; 0; 0]).
  change (networkNumberAndMask (mkIPNet [10; 240; 0; 0] [255; 255; 0; 0]))
    with ([10; 240; 0; 0], [255; 255; 0; 0]).
  cbv beta iota.
  generalize (if negb (is_nil (To4 x)) then To4 x else x). intros y.
  destruct y as [|y0 [|y1 [|y2 [|y3 [|y4 y]]]]]; try discriminate.
  cbn [length Nat.eqb negb seq forallb at_ nth].
  rewrite !andb_true_r, !Z.land_0_r, !land_idem.
  intros H. apply andb_true_iff in H as [E0 H]. apply andb_true_iff in H as [E1 _].
  apply Z.eqb_eq in E0, E1.
  rewrite (land_through_255 10 y0 m0 H0 E0), (land_through_255 240 y1 m1 H1 E1).
  now rewrite !Z.eqb_refl.
Qed.

(** X6: with a prefix length of at most 16 the draws no longer matter: a
    returned block is the one network of that prefix length around
    10.240.0.0 (10.240.0.0/16 for 16, 10.0.0.0/8 for 8, 0.0.0.0/0 for 0),
    and it contains every address of the reserved range. *)
Theorem wide_block_covers_reserved_range fuel routes c network w s w' :
  0 <= c <= 16 ->
  selectCIDRBlock fuel routes c network w = Ret (s, None) w' ->
  s = IPNet_String (blockOf 0 0 c)
  /\ (exists ip, ParseCIDR s = inl (ip, blockOf 0 0 c))
  /\ forall x,
       IPNet_Contains reservedRange x = true ->
       IPNet_Contains (blockOf 0 0 c) x = true.
Proof.
  intros Hc H. assert (0 <= c <= 32) as Hc' by lia.
  assert (forall t f, blockOf t f c = blockOf 0 0 c) as B.
  { intros t f. destruct (blockOf_le16 t f c Hc) as (m0 & m1 & _ & _ & -> & ->).
    reflexivity. }
  destruct (ParseCIDR_blockText 0 0 c ltac:(unfold is_byte; lia)
              ltac:(unfold is_byte; lia) Hc') as (ip & P & T).
  destruct (select_routes _ _ _ _ _ _ _ H) as ([cidrBlocks|early] & out & R).
  - destruct fuel as [|fuel].
    { rewrite (select_sample _ _ _ _ _ _ _ R) in H. discriminate. }
    destruct (select_block fuel _ c _ _ _ _ R Hc') as (_ & _ & _ & S).
    rewrite S in H. injection H as <- _.
    assert (forall t f, blockText t f c = blockText 0 0 c) as BT
      by (intros t f; unfold blockText; now rewrite B).
    rewrite BT. split; [now rewrite T|]. split; [eauto|].
    intros x Hx. destruct (blockOf_le16 0 0 c Hc) as (m0 & m1 & H0 & H1 & -> & _).
    now apply wide_block_contains.
  - rewrite (select_early _ _ _ _ _ _ _ R) in H. injection H as -> _.
    destruct (routes_error _ _ _ _ _ _ R) as (e & E & _). discriminate.
Qed.


Lemma huge_ok_all c : 2 ^ 64 - 32 < c < 2 ^ 64 -> huge_ok c = true.
Proof.
  intros H.
  assert (forallb huge_ok (Zrange (2 ^ 64 - 31) 31) = true) as A
    by (vm_compute; reflexivity).
  rewrite forallb_forall in A. apply A, Zrange_In. lia.
Qed.

Lemma ParseCIDR_overflow a b c d n :
  is_byte a -> is_byte b -> is_byte c -> is_byte d ->
  dtoi_overflows n = true ->
  ParseCIDR (fmt_Sprintf_s_slash_d (dotted a b c d) n)
  = inr (ParseError "CIDR address" (fmt_Sprintf_s_slash_d (dotted a b c d) n)).
Proof.
  intros Ha Hb Hc Hd Hn. unfold ParseCIDR, fmt_Sprintf_s_slash_d.
  change ("/" +:+ uitoa n) with (String "/" (uitoa n)).
  rewrite byteIndex_app by now apply no_slash_dotted.
  rewrite str_take_app.
  replace (S (str_len (dotted a b c d))) with (str_len (dotted a b c d) + 1)%nat by lia.
  rewrite str_drop_app_sep, parseIPv4_dotted by assumption.
  change (is_nil (IPv4 a b c d)) with false. cbv iota.
  unfold dtoi_overflows in Hn. apply negb_true_iff in Hn.
  destruct (dtoi (uitoa n)) as [[ones used] good]. cbn [snd] in Hn. subst good.
  reflexivity.
Qed.

(** X7: with a prefix length of 2^64 - 31 or more the shift no longer
    yields zero, the fourth octet is 0, and the text built for the
    candidate does not parse: a call that gets past the first loop returns
    the constructed-CIDR error of line 77. *)
Theorem huge_prefix_returns_constructed_error fuel routes c network w cidrBlocks w1 :
  selectCIDRBlock_routes routes network [] w = Ret (inl cidrBlocks) w1 ->
  2 ^ 64 - 32 < c < 2 ^ 64 ->
  exists t,
    1 <= t <= 254
    /\ selectCIDRBlock (S fuel) routes c network w
       = Ret ("", Some (Errorf "error parsing constructed CIDR: %v"
                          [arg_error (ParseError "CIDR address"
                             (fmt_Sprintf_s_slash_d (dotted 10 240 t 0) c))]))
           (skip_rand 2 (seeded w1)).
Proof.
  intros H Hc. pose proof (huge_ok_all c Hc) as A. unfold huge_ok in A.
  apply andb_true_iff in A as [A Ho]. apply andb_true_iff in A as [Hz Hq].
  apply negb_true_iff, Z.eqb_neq in Hz. apply Z.eqb_eq in Hq.
  pose proof (Z.mod_pos_bound (globalRand (seeded w1) 0%nat) 254 ltac:(lia)) as Ht.
  exists (globalRand (seeded w1) 0%nat mod 254 + 1). split; [lia|].
  rewrite (select_sample _ _ _ _ _ _ _ H), sampleLoop_run.
  rewrite drawCandidate_run by auto using shl_int_1_in_int.
  rewrite Hq. change (0 * shl_int 1 (sub_uint 32 c) + 1) with 1. rewrite Z.mod_1_r.
  unfold constructCIDR. rewrite IP_String_IPv4.
  rewrite ParseCIDR_overflow; try assumption; try (unfold is_byte; lia).
  reflexivity.
Qed.

Lemma table_bounds hardwareType bits :
  tpuDeviceNetworkSizes_init !! hardwareType = Some bits -> 24 <= bits <= 29.
Proof.
  unfold tpuDeviceNetworkSizes_init. intros E.
  apply elem_of_list_to_map_2 in E.
  repeat (apply elem_of_cons in E as [E|E]; [injection E as _ ->; lia|]).
  inversion E.
Qed.

(** X9: after package initialisation every size [cidrBlockSize] returns
    without an error lies between 24 and 29. *)
Theorem table_sizes_between_24_and_29 hardwareType out now rnd bits w' :
  cidrBlockSize hardwareType (boot out now rnd) = Ret (bits, None) w' ->
  24 <= bits <= 29.
Proof.
  unfold cidrBlockSize, bind, read, ret. cbn [tpuDeviceNetworkSizes boot].
  destruct (tpuDeviceNetworkSizes_init !! hardwareType) as [b|] eqn:E; [|discriminate].
  intros [= <- _]. now apply (table_bounds hardwareType).
Qed.

(** ** [printCidrBlock] *)

Lemma Pages_append pages final :
  forall acc,
    Pages pages final (fun routeList routeItems => (routeItems ++ routeList, None)) acc
    = (acc ++ concat pages, final).
Proof.
  induction pages as [|p rest IH]; intros acc; cbn [Pages concat].
  - now rewrite app_nil_r.
  - now rewrite IH, <- app_assoc.
Qed.

Lemma first_failing legacy network routes :
  forallb (fun i => negb (failing legacy network i)) routes = false ->
  exists pre i post,
    routes = pre ++ i :: post
    /\ forallb (fun j => negb (failing legacy network j)) pre = true
    /\ (i = None \/ exists e, routeVerdict legacy network i = Fail e).
Proof.
  induction routes as [|j rest IH]; cbn [forallb]; intros H; [discriminate|].
  destruct (failing legacy network j) eqn:F; cbn [negb andb] in H.
  - unfold failing in F. exists [], j, rest. split; [reflexivity|]. split; [reflexivity|].
    destruct (routeVerdict legacy network j) as [| | | |e] eqn:V; try discriminate.
    + left. now apply verdict_nil in V.
    + right. eauto.
  - destruct (IH H) as (pre & i & post & -> & Hpre & V).
    exists (j :: pre), i, post. cbn [forallb]. rewrite F. auto.
Qed.

Lemma select_panic_at fuel pre post c network w cidrBlocks w1 :
  selectCIDRBlock_routes pre network [] w = Ret (inl cidrBlocks) w1 ->
  selectCIDRBlock fuel (pre ++ None :: post) c network w = Panic nilDereference.
Proof.
  intros R. apply select_panic. now rewrite (routes_app _ _ _ _ _ _ _ R).
Qed.

Lemma continues_all network routes :
  Forall (fun l => l = "continue") (continues network routes).
Proof.
  unfold continues.
  induction (List.filter (fun i => negb (relevant network i)) routes); cbn [map];
    constructor; auto.
Qed.

(** What a call for a prefix length of at most 32 comes to: the block, the
    error of the first failing route, or the panic on the first [nil]
    element. *)
Lemma select_outcome fuel routes c network w :
  0 <= c <= 32 ->
  (forallb (fun i => negb (failing (legacyNetwork w) network i)) routes = true
   /\ exists t f,
        1 <= t <= 254 /\ is_byte f
        /\ selectCIDRBlock (S fuel) routes c network w
           = Ret (blockText t f c, None)
               (skip_rand 2 (seeded (with_stdout (stdout w ++ continues network routes) w))))
  \/ (exists pre i post e,
        routes = pre ++ i :: post
        /\ forallb (fun j => negb (failing (legacyNetwork w) network j)) pre = true
        /\ routeVerdict (legacyNetwork w) network i = Fail e
        /\ selectCIDRBlock (S fuel) routes c network w
           = Ret ("", Some e) (with_stdout (stdout w ++ continues network pre) w))
  \/ (exists pre post,
        routes = pre ++ None :: post
        /\ selectCIDRBlock (S fuel) routes c network w = Panic nilDereference).
Proof.
  intros Hc.
  destruct (forallb (fun i => negb (failing (legacyNetwork w) network i)) routes) eqn:F.
  - left. split; [reflexivity|].
    destruct (select_block fuel routes c network w _ _
                (routes_complete routes network [] w F) Hc) as (Ht & _ & Hf & S).
    eauto.
  - right. destruct (first_failing _ _ _ F) as (pre & i & post & -> & Hpre & [->|[e V]]).
    + right. exists pre, post. split; [reflexivity|].
      apply (select_panic_at (S fuel) pre post c network w _ _
               (routes_complete pre network [] w Hpre)).
    + left. exists pre, i, post, e. repeat split; auto.
      apply (select_fail_at (S fuel) pre i post c network w _ _ e
               (routes_complete pre network [] w Hpre) V).
Qed.

(** [printCidrBlock] once the cloud has delivered the routes. *)
Lemma printCidrBlock_listed fuel network project tpuHardware pages w :
  google_DefaultClient cloud = None ->
  compute_New cloud = None ->
  Routes_List_Pages cloud (fmt_Sprintf_userAgent "1.9-dev" "gcloud") project = (pages, None) ->
  printCidrBlock fuel network project tpuHardware w
  = match tpuDeviceNetworkSizes w !! tpuHardware with
    | None =>
        Ret (Some (Errorf "unknown TPU device size %q" [arg_string tpuHardware])) w
    | Some bits =>
        match selectCIDRBlock fuel (concat pages) bits network w with
        | Ret (s, None) w' => Ret None (with_stdout (stdout w' ++ [s]) w')
        | Ret (_, Some err) w' => Ret (Some err) w'
        | Panic msg => Panic msg
        | OutOfFuel => OutOfFuel
        end
    end.
Proof.
  intros H1 H2 H3. unfold printCidrBlock. rewrite H1, H2, H3, Pages_append.
  cbn [app]. unfold cidrBlockSize, bind, read, ret.
  destruct (tpuDeviceNetworkSizes w !! tpuHardware) as [bits|]; [|reflexivity].
  cbn [fst snd].
  destruct (selectCIDRBlock fuel (concat pages) bits network w) as [[s [err|]] w'| |];
    reflexivity.
Qed.

(** X10: when the cloud calls succeed, the hardware type is in the table
    and no listed route makes the first loop fail, [printCidrBlock] returns
    [nil]; it prints one line for each route of another network and then,
    last, the block, which is 10.240.t.g/bits with a third octet from 1 to
    254 and a fourth octet that is a multiple of the block size. *)
Theorem printCidrBlock_prints_aligned_block fuel network project tpuHardware
    out now rnd pages bits :
  google_DefaultClient cloud = None ->
  compute_New cloud = None ->
  Routes_List_Pages cloud (fmt_Sprintf_userAgent "1.9-dev" "gcloud") project = (pages, None) ->
  tpuDeviceNetworkSizes_init !! tpuHardware = Some bits ->
  forallb (fun i => negb (failing legacyNetwork_init network i)) (concat pages) = true ->
  exists t g w',
    printCidrBlock (S fuel) network project tpuHardware (boot out now rnd) = Ret None w'
    /\ stdout w'
       = out ++ continues network (concat pages)
             ++ [dotted 10 240 t g +:+ "/" +:+ uitoa bits]
    /\ 1 <= t <= 254 /\ 0 <= g <= 255 /\ g mod 2 ^ (32 - bits) = 0.
Proof.
  intros H1 H2 H3 Hb Hr. pose proof (table_bounds _ _ Hb) as B.
  rewrite (printCidrBlock_listed _ _ _ _ _ _ H1 H2 H3).
  cbn [tpuDeviceNetworkSizes boot]. rewrite Hb.
  destruct (select_block fuel (concat pages) bits network (boot out now rnd) _ _
              (routes_complete (concat pages) network [] (boot out now rnd) Hr)
              ltac:(lia)) as (Ht & _ & Hf & S).
  rewrite S.
  set (t := rngSource (clock (boot out now rnd)) 0%nat mod 254 + 1) in *.
  set (f := rngSource (clock (boot out now rnd)) 1%nat mod _) in *.
  assert (0 < 2 ^ (32 - bits)) as Hp by (apply Z.pow_pos_nonneg; lia).
  pose proof (Z.mod_pos_bound f (2 ^ (32 - bits)) Hp) as Hm.
  pose proof (Z.mod_le f (2 ^ (32 - bits)) ltac:(unfold is_byte in Hf; lia) Hp) as Hle.
  exists t, (f - f mod 2 ^ (32 - bits)). eexists. split; [reflexivity|].
  split.
  - cbn [stdout with_stdout skip_rand seeded boot].
    rewrite blockText_24 by (auto; unfold is_byte; lia). now rewrite <- app_assoc.
  - split; [exact Ht|]. split; [unfold is_byte in Hf; lia|].
    rewrite Zminus_mod_idemp_r, Z.sub_diag. apply Z.mod_0_l. lia.
Qed.

(** X11: after package initialisation [printCidrBlock], whatever the
    cloud delivers, never divides by zero and never needs a second round of
    the sampling loop: it returns, or it panics at line 40 on a [nil] item
    of the listing, and it returns whenever the listing holds no [nil]
    item. When it returns an error it has printed nothing but lines for
    routes of other networks; when it returns [nil] it has printed such
    lines and then, last, the block 10.240.t.g/bits for the size of the
    hardware type, with t from 1 to 254 and g a multiple of the block
    size. *)
Theorem printCidrBlock_returns_or_panics_on_nil fuel network project tpuHardware
    out now rnd :
  ((exists r w' lines,
      printCidrBlock (S fuel) network project tpuHardware (boot out now rnd) = Ret r w'
      /\ Forall (fun l => l = "continue") lines
      /\ match r with
         | Some _ => stdout w' = out ++ lines
         | None =>
             exists bits t g,
               tpuDeviceNetworkSizes_init !! tpuHardware = Some bits
               /\ 1 <= t <= 254 /\ 0 <= g <= 255 /\ g mod 2 ^ (32 - bits) = 0
               /\ stdout w'
                  = out ++ lines ++ [dotted 10 240 t g +:+ "/" +:+ uitoa bits]
         end)
   \/ printCidrBlock (S fuel) network project tpuHardware (boot out now rnd)
      = Panic nilDereference)
  /\ (~ In None (concat (fst (Routes_List_Pages cloud
                                (fmt_Sprintf_userAgent "1.9-dev" "gcloud") project))) ->
      exists r w',
        printCidrBlock (S fuel) network project tpuHardware (boot out now rnd) = Ret r w').
Proof.
  assert (forall (e : error) (bits0 : option Z), exists (r : option error) w' lines,
            Ret (Some e) (boot out now rnd) = Ret r w'
            /\ Forall (fun l => l = "continue") lines
            /\ match r with
               | Some _ => stdout w' = out ++ lines
               | None =>
                   exists bits t g,
                     bits0 = Some bits
                     /\ 1 <= t <= 254 /\ 0 <= g <= 255 /\ g mod 2 ^ (32 - bits) = 0
                     /\ stdout w'
                        = out ++ lines ++ [dotted 10 240 t g +:+ "/" +:+ uitoa bits]
               end) as Early.
  { intros e bits0. exists (Some e), (boot out now rnd), []. repeat split; auto.
    cbn. now rewrite app_nil_r. }
  destruct (google_DefaultClient cloud) as [e1|] eqn:H1.
  { unfold printCidrBlock. rewrite H1. split; [left; apply Early|eauto]. }
  destruct (compute_New cloud) as [e2|] eqn:H2.
  { unfold printCidrBlock. rewrite H1, H2. split; [left; apply Early|eauto]. }
  destruct (Routes_List_Pages cloud (fmt_Sprintf_userAgent "1.9-dev" "gcloud") project)
    as [pages [e3|]] eqn:H3.
  { unfold printCidrBlock. rewrite H1, H2, H3, Pages_append.
    split; [left; apply Early|eauto]. }
  rewrite (printCidrBlock_listed _ _ _ _ _ _ H1 H2 H3).
  cbn [tpuDeviceNetworkSizes boot fst].
  destruct (tpuDeviceNetworkSizes_init !! tpuHardware) as [bits|] eqn:Hb;
    [|split; [left; apply Early|eauto]].
  pose proof (table_bounds _ _ Hb) as B.
  destruct (select_outcome fuel (concat pages) bits network (boot out now rnd) ltac:(lia))
    as [(_ & t & f & Ht & Hf & S)|[(pre & i & post & e & _ & _ & _ & S)|(pre & post & E & S)]];
    rewrite S.
  - split; [left|eauto].
    assert (0 < 2 ^ (32 - bits)) as Hp by (apply Z.pow_pos_nonneg; lia).
    pose proof (Z.mod_pos_bound f (2 ^ (32 - bits)) Hp) as Hm.
    pose proof (Z.mod_le f (2 ^ (32 - bits)) ltac:(unfold is_byte in Hf; lia) Hp) as Hle.
    eexists None, _, (continues network (concat pages)).
    split; [reflexivity|]. split; [apply continues_all|].
    exists bits, t, (f - f mod 2 ^ (32 - bits)).
    split; [reflexivity|]. split; [exact Ht|]. split; [unfold is_byte in Hf; lia|].
    split; [rewrite Zminus_mod_idemp_r, Z.sub_diag; apply Z.mod_0_l; lia|].
    cbn [stdout with_stdout skip_rand seeded boot].
    rewrite blockText_24 by (auto; unfold is_byte; lia). now rewrite <- app_assoc.
  - split; [left|eauto].
    eexists (Some e), _, (continues network pre).
    split; [reflexivity|]. split; [apply continues_all|]. reflexivity.
  - split; [now right|].
    intros Hnil. exfalso. apply Hnil. rewrite E. apply in_or_app. right. now left.
Qed.

(** X12: after package initialisation [printCidrBlock] returns [nil]
    exactly when both cloud calls succeed, the listing ends without an
    error, the hardware type is a key of the table, and no listed item
    stops the first loop (none is [nil] and none is a route that makes the
    loop return an error). *)
Theorem printCidrBlock_succeeds_iff fuel network project tpuHardware out now rnd :
  (exists w',
     printCidrBlock (S fuel) network project tpuHardware (boot out now rnd) = Ret None w')
  <-> google_DefaultClient cloud = None
      /\ compute_New cloud = None
      /\ snd (Routes_List_Pages cloud (fmt_Sprintf_userAgent "1.9-dev" "gcloud") project)
         = None
      /\ is_Some (tpuDeviceNetworkSizes_init !! tpuHardware)
      /\ forallb (fun i => negb (failing legacyNetwork_init network i))
           (concat (fst (Routes_List_Pages cloud
                           (fmt_Sprintf_userAgent "1.9-dev" "gcloud") project))) = true.
Proof.
  destruct (google_DefaultClient cloud) as [e1|] eqn:H1.
  { unfold printCidrBlock. rewrite H1. split; [intros [w' H]|intros [H _]]; discriminate. }
  destruct (compute_New cloud) as [e2|] eqn:H2.
  { unfold printCidrBlock. rewrite H1, H2.
    split; [intros [w' H]|intros (_ & H & _)]; discriminate. }
  destruct (Routes_List_Pages cloud (fmt_Sprintf_userAgent "1.9-dev" "gcloud") project)
    as [pages [e3|]] eqn:H3.
  { unfold printCidrBlock. rewrite H1, H2, H3, Pages_append.
    split; [intros [w' H]|intros (_ & _ & H & _)]; discriminate. }
  rewrite (printCidrBlock_listed _ _ _ _ _ _ H1 H2 H3).
  cbn [tpuDeviceNetworkSizes boot fst snd].
  destruct (tpuDeviceNetworkSizes_init !! tpuHardware) as [bits|] eqn:Hb.
  2:{ split; [intros [w' H]; discriminate|intros (_ & _ & _ & [b Hs] & _); discriminate]. }
  pose proof (table_bounds _ _ Hb) as B.
  destruct (select_outcome fuel (concat pages) bits network (boot out now rnd) ltac:(lia))
    as [(F & t & f & _ & _ & S)
       |[(pre & i & post & e & E & Hpre & V & S)|(pre & post & E & S)]]; rewrite S.
  - split; [intros _|intros _; eauto]. repeat split; eauto.
  - split; [intros [w' H]; discriminate|].
    intros (_ & _ & _ & _ & F). exfalso.
    cbn [legacyNetwork boot] in V. rewrite E, forallb_app in F.
    apply andb_true_iff in F as [_ F]. cbn [forallb] in F.
    unfold failing in F. rewrite V in F. discriminate.
  - split; [intros [w' H]; discriminate|].
    intros (_ & _ & _ & _ & F). exfalso.
    rewrite E, forallb_app in F.
    apply andb_true_iff in F as [_ F]. cbn [forallb] in F. discriminate.
Qed.

(** ** More on the first loop and on the block *)

Lemma HasSuffix_empty s : strings_HasSuffix s "" = true.
Proof.
  unfold strings_HasSuffix. cbn [str_len String.length Nat.leb andb].
  rewrite Nat.sub_0_r. unfold str_len. induction s; cbn; auto.
Qed.

Lemma routes_empty_network routes :
  forall acc w r w',
    selectCIDRBlock_routes routes "" acc w = Ret r w' -> w' = w.
Proof.
  induction routes as [|i rest IH]; intros acc w r w' H.
  - cbn in H. unfold ret in H. congruence.
  - rewrite routes_step in H.
    destruct (routeVerdict (legacyNetwork w) "" i) eqn:V; eauto.
    + discriminate.
    + apply verdict_irrelevant in V. destruct i as [i|]; [|discriminate].
      unfold relevant in V. now rewrite HasSuffix_empty in V.
    + congruence.
Qed.

(** X13: with an empty network argument every route counts as a route of
    the target network: in a list without [nil] elements a range that does
    not parse makes the call fail wherever it stands and whatever the
    network of its route, and since no route is passed over nothing is
    printed: the world is left as it was. *)
Theorem empty_network_examines_every_route fuel routes c w i err :
  ~ In None routes ->
  In (Some i) routes ->
  ParseCIDR (DestRange i) = inr err ->
  exists e, selectCIDRBlock fuel routes c "" w = Ret ("", Some e) w.
Proof.
  intros Hnil Hin Hp.
  assert (routeVerdict (legacyNetwork w) "" (Some i) = Fail err) as V.
  { unfold routeVerdict. now rewrite HasSuffix_empty, Hp. }
  destruct (routes_fail_no_nil routes "" (Some i) err Hin Hnil [] w V) as (e & w' & R).
  pose proof (routes_empty_network _ _ _ _ _ R) as ->.
  exists e. now apply select_early.
Qed.

Lemma mask_mid_ok_all n : 16 <= n <= 24 -> mask_mid_ok n = true.
Proof.
  intros H.
  assert (forallb mask_mid_ok (Zrange 16 9) = true) as A by (vm_compute; reflexivity).
  rewrite forallb_forall in A. apply A, Zrange_In. lia.
Qed.

Lemma blockText_mid t f n :
  is_byte t -> 16 <= n <= 24 ->
  blockText t f n = dotted 10 240 (t - t mod 2 ^ (24 - n)) 0 +:+ "/" +:+ uitoa n.
Proof.
  intros Ht H. pose proof (mask_mid_ok_all n H) as A. unfold mask_mid_ok in A.
  unfold blockText, blockOf.
  destruct (CIDRMask n 32) as [|m0 [|m1 [|m2 [|m3 [|? ?]]]]]; try discriminate;
    repeat match type of A with
           | match ?m with _ => _ end = true => destruct m; try discriminate
           end.
  rewrite forallb_forall in A.
  specialize (A t (Zrange_In 0 256 t ltac:(unfold is_byte in Ht; lia))).
  apply Z.eqb_eq in A. rewrite and_bytes_4, A, Z.land_0_r. reflexivity.
Qed.

(** X14: with a prefix length between 16 and 24 a returned block is
    10.240.g.0/c: the fourth octet is 0 and the third octet is the one
    drawn, cut down to a multiple of [2^(24 - c)] (so it may be 0). *)
Theorem medium_block_is_aligned fuel routes c network w s w' :
  16 <= c <= 24 ->
  selectCIDRBlock fuel routes c network w = Ret (s, None) w' ->
  exists g,
    0 <= g <= 254 /\ g mod 2 ^ (24 - c) = 0
    /\ s = dotted 10 240 g 0 +:+ "/" +:+ uitoa c.
Proof.
  intros Hc H. assert (0 <= c <= 32) as Hc' by lia.
  destruct (select_routes _ _ _ _ _ _ _ H) as ([cidrBlocks|early] & out & R).
  - destruct fuel as [|fuel].
    { rewrite (select_sample _ _ _ _ _ _ _ R) in H. discriminate. }
    destruct (select_block fuel _ c _ _ _ _ R Hc') as (Ht & _ & Hf & S).
    rewrite S in H. injection H as <- _.
    set (t := rngSource (clock w) 0%nat mod 254 + 1) in *.
    set (f := rngSource (clock w) 1%nat mod _) in *.
    assert (0 < 2 ^ (24 - c)) as Hp by (apply Z.pow_pos_nonneg; lia).
    pose proof (Z.mod_pos_bound t (2 ^ (24 - c)) Hp) as Hm.
    pose proof (Z.mod_le t (2 ^ (24 - c)) ltac:(lia) Hp) as Hle.
    exists (t - t mod 2 ^ (24 - c)). split; [lia|]. split.
    + rewrite Zminus_mod_idemp_r, Z.sub_diag. apply Z.mod_0_l. lia.
    + apply blockText_mid; auto. unfold is_byte. lia.
  - rewrite (select_early _ _ _ _ _ _ _ R) in H. injection H as -> _.
    destruct (routes_error _ _ _ _ _ _ R) as (e & E & _). discriminate.
Qed.

(** X15: for a hardware type that is not a key of the table
    [printCidrBlock] returns an error and leaves the world as it was: no
    route is examined (not even a malformed one makes a difference),
    nothing is printed, and the random source is neither seeded nor
    used. *)
Theorem unknown_hardware_stops_before_routes fuel network project tpuHardware w :
  tpuDeviceNetworkSizes w !! tpuHardware = None ->
  exists e, printCidrBlock fuel network project tpuHardware w = Ret (Some e) w.
Proof.
  intros Hb.
  destruct (google_DefaultClient cloud) as [e1|] eqn:H1.
  { unfold printCidrBlock. rewrite H1. eauto. }
  destruct (compute_New cloud) as [e2|] eqn:H2.
  { unfold printCidrBlock. rewrite H1, H2. eauto. }
  destruct (Routes_List_Pages cloud (fmt_Sprintf_userAgent "1.9-dev" "gcloud") project)
    as [pages [e3|]] eqn:H3.
  { unfold printCidrBlock. rewrite H1, H2, H3, Pages_append. eauto. }
  rewrite (printCidrBlock_listed _ _ _ _ _ _ H1 H2 H3), Hb. eauto.
Qed.


End Program.

(** ** The statements on concrete calls *)

(** C2 on the scenario of a /29 next to a route of another network. *)
Lemma result_within_reserved_range_witness :
  exists ip block,
    ParseCIDR noIPv6 "10.240.1.0/29" = inl (ip, block)
    /\ IPNet_String plainIPv6 block = "10.240.1.0/29"
    /\ IPMask_Size (IPNet_Mask block) = (29, 32)
    /\ IPNet_Contains reservedRange (IPNet_IP block) = true
    /\ forall x, IPNet_Contains block x = true -> IPNet_Contains reservedRange x = true.
Proof.
  apply (result_within_reserved_range noIPv6 plainIPv6 (constSource 0) 1
           [Some (mkRoute "proj/net-a" "10.240.0.0/16")] 29 "net-b" world0
           "10.240.1.0/29"
           (mkWorld legacyNetwork_init tpuDeviceNetworkSizes_init ["continue"] 0
              (fun _ => 0))).
  - lia.
  - vm_compute. reflexivity.
Defined.

(** C3 (amended) on a call for a /29 with the route 10.240.1.0/24 in the
    conflict set. *)
Lemma sampling_returns_first_candidate_witness :
  exists t f w2,
    drawCandidate (shl_int 1 (sub_uint 32 29)) (seeded (constSource 0) world0)
    = Ret (t, f) w2
    /\ selectCIDRBlock noIPv6 plainIPv6 (constSource 0) 1
         [Some (mkRoute "default" "10.240.1.0/24")] 29 "default" world0
       = Ret (constructCIDR noIPv6 plainIPv6 (IPv4 10 240 t f) 29) w2
    /\ forall others,
         sampleLoop noIPv6 plainIPv6 1 others 29 (shl_int 1 (sub_uint 32 29))
           (seeded (constSource 0) world0)
         = Ret (constructCIDR noIPv6 plainIPv6 (IPv4 10 240 t f) 29) w2.
Proof.
  apply (sampling_returns_first_candidate noIPv6 plainIPv6 (constSource 0) 0
           [Some (mkRoute "default" "10.240.1.0/24")] 29 "default" world0
           [mkIPNet [10; 240; 1; 0] [255; 255; 255; 0]] world0).
  - reflexivity.
  - vm_compute. lia.
Defined.

(** C3 as stated fails for a prefix length of 33: the loop over the (empty)
    route list runs to its end, and the first round of the sampling loop
    stops on a division by zero instead of returning. *)
Lemma prefix_33_panics :
  selectCIDRBlock_routes noIPv6 [] "default" [] world0 = Ret (inl []) world0
  /\ forall fuel,
       selectCIDRBlock noIPv6 plainIPv6 (constSource 0) (S fuel) [] 33 "default" world0
       = Panic "runtime error: integer divide by zero".
Proof. split; [reflexivity|]. intros fuel. reflexivity. Qed.

(** C5 (amended) on the route 10.240.0.0/16 of the target network. *)
Lemma legacy_route_fails_witness :
  ((exists e w',
      selectCIDRBlock noIPv6 plainIPv6 (constSource 0) 1
        [Some (mkRoute "proj/default" "10.240.0.0/16")] 29 "default" world0
      = Ret ("", Some e) w')
   \/ selectCIDRBlock noIPv6 plainIPv6 (constSource 0) 1
        [Some (mkRoute "proj/default" "10.240.0.0/16")] 29 "default" world0
      = Panic nilDereference)
  /\ (~ In None [Some (mkRoute "proj/default" "10.240.0.0/16")] ->
      exists e w',
        selectCIDRBlock noIPv6 plainIPv6 (constSource 0) 1
          [Some (mkRoute "proj/default" "10.240.0.0/16")] 29 "default" world0
        = Ret ("", Some e) w')
  /\ forall pre post cidrBlocks w1,
       [Some (mkRoute "proj/default" "10.240.0.0/16")]
       = pre ++ Some (mkRoute "proj/default" "10.240.0.0/16") :: post ->
       selectCIDRBlock_routes noIPv6 pre "default" [] world0 = Ret (inl cidrBlocks) w1 ->
       selectCIDRBlock noIPv6 plainIPv6 (constSource 0) 1
         [Some (mkRoute "proj/default" "10.240.0.0/16")] 29 "default" world0
       = Ret ("", Some legacyError) w1.
Proof.
  apply (legacy_route_fails noIPv6 plainIPv6 (constSource 0) 1
           [Some (mkRoute "proj/default" "10.240.0.0/16")] 29 "default" world0
           (mkRoute "proj/default" "10.240.0.0/16")
           (IPv4 10 240 0 0) (mkIPNet [10; 240; 0; 0] [255; 255; 0; 0])).
  - reflexivity.
  - simpl. auto.
  - reflexivity.
  - reflexivity.
  - reflexivity.
  - vm_compute. split; discriminate.
Defined.

(** C5 as stated fails when an earlier route stops the loop: behind the
    route 10.0.0.0/8 the route 10.240.0.0/16 is never reached, and the
    error is the one about the covered range. *)
Lemma legacy_route_behind_covering_route :
  In (Some (mkRoute "default" "10.240.0.0/16"))
     [Some (mkRoute "default" "10.0.0.0/8"); Some (mkRoute "default" "10.240.0.0/16")]
  /\ strings_HasSuffix "default" "default" = true
  /\ ParseCIDR noIPv6 "10.240.0.0/16"
     = inl (IPv4 10 240 0 0, mkIPNet [10; 240; 0; 0] [255; 255; 0; 0])
  /\ IPMask_Size [255; 255; 0; 0] = (16, 32)
  /\ selectCIDRBlock noIPv6 plainIPv6 (constSource 0) 1
       [Some (mkRoute "default" "10.0.0.0/8"); Some (mkRoute "default" "10.240.0.0/16")]
       29 "default" world0
     = Ret ("", Some exhaustedError) world0
  /\ exhaustedError <> legacyError.
Proof.
  split; [simpl; auto|]. repeat split; try reflexivity. discriminate.
Qed.

(** C6 (amended) on the route 10.0.0.0/8 of the target network. *)
Lemma covering_route_fails_witness :
  ((exists e w',
      selectCIDRBlock noIPv6 plainIPv6 (constSource 0) 1
        [Some (mkRoute "default" "10.0.0.0/8")] 29 "default" world0
      = Ret ("", Some e) w')
   \/ selectCIDRBlock noIPv6 plainIPv6 (constSource 0) 1
        [Some (mkRoute "default" "10.0.0.0/8")] 29 "default" world0
      = Panic nilDereference)
  /\ (~ In None [Some (mkRoute "default" "10.0.0.0/8")] ->
      exists e w',
        selectCIDRBlock noIPv6 plainIPv6 (constSource 0) 1
          [Some (mkRoute "default" "10.0.0.0/8")] 29 "default" world0
        = Ret ("", Some e) w')
  /\ (IP_Equal (IPv4 10 240 0 0) [10; 0; 0; 0] = false ->
      forall pre post cidrBlocks w1,
        [Some (mkRoute "default" "10.0.0.0/8")]
        = pre ++ Some (mkRoute "default" "10.0.0.0/8") :: post ->
        selectCIDRBlock_routes noIPv6 pre "default" [] world0 = Ret (inl cidrBlocks) w1 ->
        selectCIDRBlock noIPv6 plainIPv6 (constSource 0) 1
          [Some (mkRoute "default" "10.0.0.0/8")] 29 "default" world0
        = Ret ("", Some exhaustedError) w1).
Proof.
  apply (covering_route_fails noIPv6 plainIPv6 (constSource 0) 1
           [Some (mkRoute "default" "10.0.0.0/8")] 29 "default" world0
           (mkRoute "default" "10.0.0.0/8")
           (IPv4 10 0 0 0) (mkIPNet [10; 0; 0; 0] [255; 0; 0; 0])).
  - reflexivity.
  - simpl. auto.
  - reflexivity.
  - reflexivity.
  - vm_compute. split; discriminate.
  - reflexivity.
  - reflexivity.
Defined.

(** C6 as stated fails for a prefix length below 8: the route 0.0.0.0/0 of
    the target network contains both probe addresses, is skipped by the
    loop, and the call returns a block. *)
Lemma default_route_is_skipped :
  strings_HasSuffix "default" "default" = true
  /\ ParseCIDR noIPv6 "0.0.0.0/0"
     = inl (IPv4 0 0 0 0, mkIPNet [0; 0; 0; 0] [0; 0; 0; 0])
  /\ IPMask_Size [0; 0; 0; 0] = (0, 32)
  /\ IPNet_Contains (mkIPNet [0; 0; 0; 0] [0; 0; 0; 0]) (IPv4 10 240 1 1) = true
  /\ IPNet_Contains (mkIPNet [0; 0; 0; 0] [0; 0; 0; 0]) (IPv4 10 240 250 250) = true
  /\ selectCIDRBlock noIPv6 plainIPv6 (constSource 0) 1
       [Some (mkRoute "default" "0.0.0.0/0")] 29 "default" world0
     = Ret ("10.240.1.0/29", None) (skip_rand 2 (seeded (constSource 0) world0)).
Proof. repeat split; reflexivity. Qed.

(** C7 (amended) on a route of the target network without a prefix
    length. *)
Lemma malformed_route_aborts_witness :
  ((exists e w',
      selectCIDRBlock noIPv6 plainIPv6 (constSource 0) 1
        [Some (mkRoute "proj/net-a" "10.240.0.0/16"); Some (mkRoute "default" "10.0.0.0")]
        29 "default" world0
      = Ret ("", Some e) w')
   \/ selectCIDRBlock noIPv6 plainIPv6 (constSource 0) 1
        [Some (mkRoute "proj/net-a" "10.240.0.0/16"); Some (mkRoute "default" "10.0.0.0")]
        29 "default" world0
      = Panic nilDereference)
  /\ (~ In None [Some (mkRoute "proj/net-a" "10.240.0.0/16");
                 Some (mkRoute "default" "10.0.0.0")] ->
      exists e w',
        selectCIDRBlock noIPv6 plainIPv6 (constSource 0) 1
          [Some (mkRoute "proj/net-a" "10.240.0.0/16"); Some (mkRoute "default" "10.0.0.0")]
          29 "default" world0
        = Ret ("", Some e) w')
  /\ forall pre post cidrBlocks w1,
       [Some (mkRoute "proj/net-a" "10.240.0.0/16"); Some (mkRoute "default" "10.0.0.0")]
       = pre ++ Some (mkRoute "default" "10.0.0.0") :: post ->
       selectCIDRBlock_routes noIPv6 pre "default" [] world0 = Ret (inl cidrBlocks) w1 ->
       selectCIDRBlock noIPv6 plainIPv6 (constSource 0) 1
         [Some (mkRoute "proj/net-a" "10.240.0.0/16"); Some (mkRoute "default" "10.0.0.0")]
         29 "default" world0
       = Ret ("", Some (ParseError "CIDR address" "10.0.0.0")) w1.
Proof.
  apply (malformed_route_aborts noIPv6 plainIPv6 (constSource 0) 1
           [Some (mkRoute "proj/net-a" "10.240.0.0/16"); Some (mkRoute "default" "10.0.0.0")]
           29 "default" world0 (mkRoute "default" "10.0.0.0")
           (ParseError "CIDR address" "10.0.0.0")).
  - simpl. auto.
  - reflexivity.
  - reflexivity.
Defined.

(** C7 as stated fails when a [nil] element stands before the malformed
    route: the loop dereferences it at line 40 and the call panics, so it
    returns neither an error nor a string, whatever the fuel, the prefix
    length and the random source. *)
Lemma nil_element_before_malformed_route :
  In (Some (mkRoute "default" "10.0.0.0")) [None; Some (mkRoute "default" "10.0.0.0")]
  /\ strings_HasSuffix "default" "default" = true
  /\ ParseCIDR noIPv6 "10.0.0.0" = inr (ParseError "CIDR address" "10.0.0.0")
  /\ forall fuel c rng w,
       selectCIDRBlock noIPv6 plainIPv6 rng fuel
         [None; Some (mkRoute "default" "10.0.0.0")] c "default" w
       = Panic nilDereference.
Proof.
  split; [simpl; auto|]. repeat split; reflexivity.
Qed.

(** The parser refuses a decimal field with a leading zero, so such a
    range on a route of the target network is a malformed one. *)
Lemma leading_zero_is_malformed :
  ParseCIDR noIPv6 "10.240.01.0/24" = inr (ParseError "CIDR address" "10.240.01.0/24")
  /\ ParseCIDR noIPv6 "010.240.0.0/16" = inr (ParseError "CIDR address" "010.240.0.0/16")
  /\ selectCIDRBlock noIPv6 plainIPv6 (constSource 0) 1
       [Some (mkRoute "default" "10.240.01.0/24")] 29 "default" world0
     = Ret ("", Some (ParseError "CIDR address" "10.240.01.0/24")) world0.
Proof. repeat split; reflexivity. Qed.

(** C8 (amended) on the draw for a /29. *)
Lemma draw_within_ranges_witness :
  shl_int 1 (sub_uint 32 29) = 2 ^ (32 - 29)
  /\ exists thirdOctet fourthOctet w',
       drawCandidate (shl_int 1 (sub_uint 32 29)) world0
       = Ret (thirdOctet, fourthOctet) w'
       /\ 1 <= thirdOctet <= 254
       /\ 0 <= fourthOctet
          <= 255 / shl_int 1 (sub_uint 32 29) * shl_int 1 (sub_uint 32 29).
Proof.
  apply (proj2 (draw_within_ranges 29 world0)). lia.
Defined.

(** C8 as stated fails: for a /29 the increment is 8, and a source that
    delivers 77 makes the fourth octet 77, which is no multiple of 8. *)
Lemma fourth_octet_not_a_multiple :
  shl_int 1 (sub_uint 32 29) = 8
  /\ drawCandidate 8 (boot [] 0 (fun _ => 77))
     = Ret (78, 77) (skip_rand 2 (boot [] 0 (fun _ => 77)))
  /\ 77 mod 8 <> 0.
Proof. repeat split; try reflexivity. vm_compute. discriminate. Qed.

(** C10 on a /29. *)
Lemma constructed_CIDR_always_parses_witness :
  (forall t f, is_byte t -> is_byte f ->
     exists ip newCidr,
       ParseCIDR noIPv6
         (fmt_Sprintf_s_slash_d (IP_String plainIPv6 (IPv4 10 240 t f)) 29)
       = inl (ip, newCidr)
       /\ length (strings_Split (IPNet_String plainIPv6 newCidr) "/") = 2%nat
       /\ constructCIDR noIPv6 plainIPv6 (IPv4 10 240 t f) 29
          = (IPNet_String plainIPv6 newCidr, None))
  /\ (forall fuel routes network w v w',
        selectCIDRBlock noIPv6 plainIPv6 (constSource 0) fuel routes 29 network w
        = Ret v w' ->
        forall args,
          snd v <> Some (Errorf "error parsing constructed CIDR: %v" args)
          /\ snd v <> Some (Errorf "error parsing cidr block %q" args)).
Proof.
  apply (constructed_CIDR_always_parses noIPv6 plainIPv6 (constSource 0) 29). lia.
Defined.

(** ** Further statements on concrete calls *)

(** X1 on a list with a route of another network, a default route and a
    route that is kept. *)
Lemma conflict_set_of_kept_routes_witness :
  selectCIDRBlock_routes noIPv6
    [Some (mkRoute "proj/net-a" "10.240.0.0/16"); Some (mkRoute "default" "0.0.0.0/0");
     Some (mkRoute "default" "10.240.1.0/24")] "default" [] world0
  = Ret (inl (keptBlocks noIPv6 (legacyNetwork world0) "default"
                [Some (mkRoute "proj/net-a" "10.240.0.0/16"); Some (mkRoute "default" "0.0.0.0/0");
                 Some (mkRoute "default" "10.240.1.0/24")]))
      (with_stdout
         (stdout world0
          ++ continues "default"
               [Some (mkRoute "proj/net-a" "10.240.0.0/16"); Some (mkRoute "default" "0.0.0.0/0");
                Some (mkRoute "default" "10.240.1.0/24")]) world0).
Proof.
  apply (conflict_set_of_kept_routes noIPv6
           [Some (mkRoute "proj/net-a" "10.240.0.0/16"); Some (mkRoute "default" "0.0.0.0/0");
            Some (mkRoute "default" "10.240.1.0/24")] "default" world0).
  vm_compute. reflexivity.
Defined.

(** X2 on a malformed route behind a route of another network. *)
Lemma first_failing_route_decides_witness :
  selectCIDRBlock noIPv6 plainIPv6 (constSource 0) 1
    ([Some (mkRoute "proj/net-a" "10.240.0.0/16")]
     ++ Some (mkRoute "default" "10.0.0.0") :: [Some (mkRoute "default" "10.240.0.0/16")])
    29 "default" world0
  = Ret ("", Some (ParseError "CIDR address" "10.0.0.0"))
      (with_stdout
         (stdout world0 ++ continues "default" [Some (mkRoute "proj/net-a" "10.240.0.0/16")])
         world0).
Proof.
  apply (first_failing_route_decides noIPv6 plainIPv6 (constSource 0) 1
           [Some (mkRoute "proj/net-a" "10.240.0.0/16")] (Some (mkRoute "default" "10.0.0.0"))
           [Some (mkRoute "default" "10.240.0.0/16")] 29 "default" world0).
  - vm_compute. reflexivity.
  - vm_compute. reflexivity.
Defined.

(** X3 on the default route in front of a malformed one. *)
Lemma wide_route_is_ignored_witness :
  selectCIDRBlock noIPv6 plainIPv6 (constSource 0) 1
    ([] ++ Some (mkRoute "default" "0.0.0.0/0") :: [Some (mkRoute "default" "10.240.1.0/24")])
    29 "default" world0
  = selectCIDRBlock noIPv6 plainIPv6 (constSource 0) 1
      ([] ++ [Some (mkRoute "default" "10.240.1.0/24")]) 29 "default" world0.
Proof.
  apply (wide_route_is_ignored noIPv6 plainIPv6 (constSource 0) 1 []
           (mkRoute "default" "0.0.0.0/0") [Some (mkRoute "default" "10.240.1.0/24")]
           29 "default" world0 (IPv4 0 0 0 0) (mkIPNet [0; 0; 0; 0] [0; 0; 0; 0])).
  - reflexivity.
  - reflexivity.
  - vm_compute. reflexivity.
Defined.

(** X4 on a /29 next to a kept route, with a source that delivers 77. *)
Lemma call_succeeds_without_failing_route_witness :
  exists s ip t f w',
    selectCIDRBlock noIPv6 plainIPv6 (constSource 77) 1
      [Some (mkRoute "default" "10.240.1.0/24")] 29 "default" world0
    = Ret (s, None) w'
    /\ stdout w'
       = stdout world0 ++ continues "default" [Some (mkRoute "default" "10.240.1.0/24")]
    /\ 1 <= t <= 254 /\ 0 <= f <= 255 / 2 ^ (32 - 29) * 2 ^ (32 - 29)
    /\ ParseCIDR noIPv6 s = inl (ip, blockOf t f 29)
    /\ IPNet_String plainIPv6 (blockOf t f 29) = s.
Proof.
  apply (call_succeeds_without_failing_route noIPv6 plainIPv6 (constSource 77) 0
           [Some (mkRoute "default" "10.240.1.0/24")] 29 "default" world0).
  - vm_compute. reflexivity.
  - lia.
Defined.

(** X5 on a /29 with a source that delivers 77: the block is
    10.240.78.72/29. *)
Lemma small_block_is_aligned_witness :
  exists t g,
    1 <= t <= 254 /\ 0 <= g <= 255 /\ g mod 2 ^ (32 - 29) = 0
    /\ "10.240.78.72/29" = dotted 10 240 t g +:+ "/" +:+ uitoa 29.
Proof.
  apply (small_block_is_aligned noIPv6 plainIPv6 (constSource 77) 1 [] 29 "default"
           world0 "10.240.78.72/29" (skip_rand 2 (seeded (constSource 77) world0))).
  - lia.
  - vm_compute. reflexivity.
Defined.

(** X6 on a /16: the block is the reserved range itself. *)
Lemma wide_block_covers_reserved_range_witness :
  "10.240.0.0/16" = IPNet_String plainIPv6 (blockOf 0 0 16)
  /\ (exists ip, ParseCIDR noIPv6 "10.240.0.0/16" = inl (ip, blockOf 0 0 16))
  /\ forall x,
       IPNet_Contains reservedRange x = true ->
       IPNet_Contains (blockOf 0 0 16) x = true.
Proof.
  apply (wide_block_covers_reserved_range noIPv6 plainIPv6 (constSource 77) 1 [] 16
           "default" world0 "10.240.0.0/16"
           (skip_rand 2 (seeded (constSource 77) world0))).
  - lia.
  - vm_compute. reflexivity.
Defined.

(** X7 on the largest prefix length there is. *)
Lemma huge_prefix_returns_constructed_error_witness :
  exists t,
    1 <= t <= 254
    /\ selectCIDRBlock noIPv6 plainIPv6 (constSource 0) 1 [] (2 ^ 64 - 1) "default" world0
       = Ret ("", Some (Errorf "error parsing constructed CIDR: %v"
                          [arg_error (ParseError "CIDR address"
                             (fmt_Sprintf_s_slash_d (dotted 10 240 t 0) (2 ^ 64 - 1)))]))
           (skip_rand 2 (seeded (constSource 0) world0)).
Proof.
  apply (huge_prefix_returns_constructed_error noIPv6 plainIPv6 (constSource 0) 0 []
           (2 ^ 64 - 1) "default" world0 [] world0).
  - reflexivity.
  - lia.
Defined.

(** X8 on a prefix length of 40. *)
Lemma sampling_panics_above_32_witness :
  selectCIDRBlock noIPv6 plainIPv6 (constSource 0) 1
    [Some (mkRoute "default" "10.240.1.0/24")] 40 "default" world0
  = Panic "runtime error: integer divide by zero".
Proof.
  apply (sampling_panics_above_32 noIPv6 plainIPv6 (constSource 0) 0
           [Some (mkRoute "default" "10.240.1.0/24")] 40 "default" world0
           [mkIPNet [10; 240; 1; 0] [255; 255; 255; 0]] world0).
  - reflexivity.
  - lia.
Defined.

(** X9 on "v3-1024". *)
Lemma table_sizes_between_24_and_29_witness :
  cidrBlockSize "v3-1024" world0 = Ret (24, None) world0 /\ 24 <= 24 <= 29.
Proof.
  split; [reflexivity|].
  apply (table_sizes_between_24_and_29 "v3-1024" [] 0 (fun _ => 0) 24 world0).
  reflexivity.
Defined.

(** X10 on two pages of routes and the hardware type "v3-8". *)
Lemma printCidrBlock_prints_aligned_block_witness :
  exists t g w',
    printCidrBlock noIPv6 plainIPv6 (constSource 77)
      (cloudOf [[Some (mkRoute "proj/net-a" "10.240.0.0/16")];
                [Some (mkRoute "default" "10.240.1.0/24")]])
      1 "default" "proj" "v3-8" (boot [] 0 (fun _ => 0))
    = Ret None w'
    /\ stdout w'
       = [] ++ continues "default"
                 (concat [[Some (mkRoute "proj/net-a" "10.240.0.0/16")];
                          [Some (mkRoute "default" "10.240.1.0/24")]])
            ++ [dotted 10 240 t g +:+ "/" +:+ uitoa 29]
    /\ 1 <= t <= 254 /\ 0 <= g <= 255 /\ g mod 2 ^ (32 - 29) = 0.
Proof.
  apply (printCidrBlock_prints_aligned_block noIPv6 plainIPv6 (constSource 77)
           (cloudOf [[Some (mkRoute "proj/net-a" "10.240.0.0/16")];
                     [Some (mkRoute "default" "10.240.1.0/24")]])
           0 "default" "proj" "v3-8" [] 0 (fun _ => 0)
           [[Some (mkRoute "proj/net-a" "10.240.0.0/16")]; [Some (mkRoute "default" "10.240.1.0/24")]]
           29).
  - reflexivity.
  - reflexivity.
  - reflexivity.
  - vm_compute. reflexivity.
  - vm_compute. reflexivity.
Defined.

(** X13 on a malformed route of some network, with an empty network
    argument. *)
Lemma empty_network_examines_every_route_witness :
  exists e,
    selectCIDRBlock noIPv6 plainIPv6 (constSource 0) 1
      [Some (mkRoute "proj/net-a" "10.240.0.0")] 29 "" world0
    = Ret ("", Some e) world0.
Proof.
  apply (empty_network_examines_every_route noIPv6 plainIPv6 (constSource 0) 1
           [Some (mkRoute "proj/net-a" "10.240.0.0")] 29 world0
           (mkRoute "proj/net-a" "10.240.0.0")
           (ParseError "CIDR address" "10.240.0.0")).
  - simpl. intros [H|[]]. discriminate.
  - simpl. auto.
  - reflexivity.
Defined.

(** X14 on a /20 with a source that delivers 77: the third octet 78 is cut
    down to 64. *)
Lemma medium_block_is_aligned_witness :
  exists g,
    0 <= g <= 254 /\ g mod 2 ^ (24 - 20) = 0
    /\ "10.240.64.0/20" = dotted 10 240 g 0 +:+ "/" +:+ uitoa 20.
Proof.
  apply (medium_block_is_aligned noIPv6 plainIPv6 (constSource 77) 1 [] 20 "default"
           world0 "10.240.64.0/20" (skip_rand 2 (seeded (constSource 77) world0))).
  - lia.
  - vm_compute. reflexivity.
Defined.

(** X15 on the hardware type "v9-999" and a malformed route. *)
Lemma unknown_hardware_stops_before_routes_witness :
  exists e,
    printCidrBlock noIPv6 plainIPv6 (constSource 0)
      (cloudOf [[Some (mkRoute "default" "10.0.0.0")]]) 1 "default" "proj" "v9-999" world0
    = Ret (Some e) world0.
Proof.
  apply (unknown_hardware_stops_before_routes noIPv6 plainIPv6 (constSource 0)
           (cloudOf [[Some (mkRoute "default" "10.0.0.0")]]) 1 "default" "proj" "v9-999" world0).
  reflexivity.
Defined.
